(** * venvr: combined Python/R virtual environments

    A shallow embedding of [src/venvr/__init__.py] (the [VenvrBuilder]
    class, [get_r_info], [main] and the [__main__] block) together with
    the properties of its configuration writer, directory provisioner,
    activation-script composer and command-line driver.

    Text is a list of characters, the file system is a finite map from
    path names to nodes, and every function of the source that touches
    the file system or can raise is a computation in a state-and-exception
    monad over that map. *)

From Stdlib Require Import Ascii String.
From stdpp Require Import base option list gmap strings.

Local Open Scope bool_scope.
Local Open Scope list_scope.

(** ** Text *)

Module Text.

Definition text := list ascii.

(** A literal of the source, as a list of characters. *)
Definition T (s : string) : text := list_ascii_of_string s.

Definition newline : ascii := "010"%char.
Definition dot : ascii := "."%char.
Definition slash : ascii := "/"%char.
Definition underscore : ascii := "_"%char.
Definition dquote : ascii := "034"%char.

(** [s.startswith(t)] *)
Fixpoint startswith (t s : text) : bool :=
  match t, s with
  | [], _ => true
  | a :: t', b :: s' => Ascii.eqb a b && startswith t' s'
  | _ :: _, [] => false
  end.

(** [t in s] *)
Fixpoint contains (t s : text) : bool :=
  startswith t s ||
  match s with
  | [] => false
  | _ :: s' => contains t s'
  end.

(** [s.replace(old, new)] scans [s] from the left; where [old] starts it
    emits [new] and steps over the occurrence ([skip] counts the characters
    of the occurrence still to be stepped over). *)
Fixpoint replace_from (old new : text) (skip : nat) (s : text) : text :=
  match s with
  | [] => []
  | c :: s' =>
      match skip with
      | S k => replace_from old new k s'
      | O =>
          if startswith old s
          then new ++ replace_from old new (length old - 1) s'
          else c :: replace_from old new 0 s'
      end
  end.

Definition str_replace (old new s : text) : text :=
  match old with
  | [] => new ++ flat_map (fun c => c :: new) s
  | _ :: _ => replace_from old new 0 s
  end.

(** [s.split(sep)] for a one-character separator. *)
Fixpoint split_on (sep : ascii) (s : text) : list text :=
  match s with
  | [] => [[]]
  | c :: s' =>
      if Ascii.eqb c sep then [] :: split_on sep s'
      else match split_on sep s' with
           | [] => [[c]]
           | w :: ws => (c :: w) :: ws
           end
  end.

(** [sep.join(parts)] *)
Fixpoint join (sep : text) (parts : list text) : text :=
  match parts with
  | [] => []
  | w :: ws =>
      match ws with
      | [] => w
      | _ :: _ => w ++ sep ++ join sep ws
      end
  end.

(** [s.rstrip(c)] for a one-character set. *)
Fixpoint rstrip (c : ascii) (s : text) : text :=
  match s with
  | [] => []
  | x :: s' =>
      match rstrip c s' with
      | [] => if Ascii.eqb x c then [] else [x]
      | r => x :: r
      end
  end.

(** The lines of a text file, without their terminators: a last line
    that no newline ends counts as a line, an empty text has none. *)
Definition cons_line (c : ascii) (ls : list text) : list text :=
  match ls with
  | [] => [[c]]
  | l :: ls' => (c :: l) :: ls'
  end.

Fixpoint lines (s : text) : list text :=
  match s with
  | [] => []
  | c :: s' =>
      if Ascii.eqb c newline then [] :: lines s'
      else cons_line c (lines s')
  end.

(** The text is empty or its last line is ended by a newline. *)
Definition terminated (s : text) : bool :=
  match last s with
  | Some c => Ascii.eqb c newline
  | None => true
  end.

Definition has_newline (s : text) : bool := existsb (Ascii.eqb newline) s.

Definition in_range (lo hi c : ascii) : bool :=
  (nat_of_ascii lo <=? nat_of_ascii c)%nat && (nat_of_ascii c <=? nat_of_ascii hi)%nat.

(** [\d] and [\w] of the [re] module, on ASCII text. *)
Definition is_digit (c : ascii) : bool := in_range "0" "9" c.

Definition is_word (c : ascii) : bool :=
  in_range "a" "z" c || in_range "A" "Z" c || is_digit c || Ascii.eqb c underscore.

End Text.
Export Text.

(** ** Regular expressions of the source *)

Module Re.

(** [\d+] is greedy: it takes every leading digit. What follows it in both
    patterns of the source is a character that is not a digit, so the
    longest run is the only one that can match. *)
Fixpoint skip_digits (s : text) : text :=
  match s with
  | c :: s' => if is_digit c then skip_digits s' else s
  | [] => []
  end.

Definition digits1 (s : text) : option text :=
  match s with
  | c :: s' => if is_digit c then Some (skip_digits s') else None
  | [] => None
  end.

(** [re.match(r"\d+\.\d+\..+", rv) is not None]; [.] excludes the newline. *)
Definition match_version (rv : text) : bool :=
  match digits1 rv with
  | Some (d1 :: r1) =>
      Ascii.eqb d1 dot &&
      match digits1 r1 with
      | Some (d2 :: c :: _) => Ascii.eqb d2 dot && negb (Ascii.eqb c newline)
      | _ => false
      end
  | _ => false
  end.

Definition deactivate : text := T "deactivate".
Definition deactivate_py : text := T "deactivate_py".

Definition word_opt (c : option ascii) : bool :=
  match c with
  | Some a => is_word a
  | None => false
  end.

(** [\b] between the character before the position and the one after it
    ([None] at either end of the text). *)
Definition word_boundary (before after : option ascii) : bool :=
  xorb (word_opt before) (word_opt after).

(** [\bdeactivate\b] matches at the head of [s], [prev] being the
    character in front of [s]. *)
Definition match_deactivate (prev : option ascii) (s : text) : bool :=
  word_boundary prev (head s) &&
  startswith deactivate s &&
  word_boundary (last deactivate) (head (drop (length deactivate) s)).

(** [re.sub(r"\bdeactivate\b", "deactivate_py", s)]: leftmost matches,
    none overlapping, everything else copied. *)
Fixpoint sub_from (prev : option ascii) (skip : nat) (s : text) : text :=
  match s with
  | [] => []
  | c :: s' =>
      match skip with
      | S k => sub_from (Some c) k s'
      | O =>
          if match_deactivate prev s
          then deactivate_py ++ sub_from (Some c) (length deactivate - 1) s'
          else c :: sub_from (Some c) 0 s'
      end
  end.

Definition sub_deactivate (s : text) : text := sub_from None 0 s.





End Re.

(** ** Placeholder tables *)

Module Subst.

(** Placeholder tokens with their values, in the order they are tried. *)
Definition table := list (text * text).

(** The first entry of the table whose token starts [s]. *)
Definition find_token (tb : table) (s : text) : option (text * text) :=
  List.find (fun e => startswith (fst e) s) tb.

(** One [str.replace] per entry, each on the result of the one before. *)
Definition replace_all (tb : table) (s : text) : text :=
  fold_left (fun acc e => str_replace (fst e) (snd e) acc) tb s.

(** Modelled on the words of the specification: in one pass over the
    text, every recognized token is replaced by its value, and everything
    else is kept. *)
Fixpoint resolve_from (tb : table) (skip : nat) (s : text) : text :=
  match s with
  | [] => []
  | c :: s' =>
      match skip with
      | S k => resolve_from tb k s'
      | O =>
          match find_token tb s with
          | Some (tok, val) => val ++ resolve_from tb (length tok - 1) s'
          | None => c :: resolve_from tb 0 s'
          end
      end
  end.

Definition resolve (tb : table) (s : text) : text := resolve_from tb 0 s.

(** No token of the table starts at one of the first [n] places of [s]. *)
Fixpoint clear_for (tb : table) (n : nat) (s : text) : bool :=
  match n with
  | O => true
  | S k =>
      match find_token tb s with
      | Some _ => false
      | None =>
          match s with
          | [] => true
          | _ :: s' => clear_for tb k s'
          end
      end
  end.

(** The occurrences of tokens in [s] do not overlap: where one starts,
    none starts inside it. *)
Fixpoint separated (tb : table) (s : text) : bool :=
  match s with
  | [] => true
  | _ :: s' =>
      match find_token tb s with
      | Some (tok, _) => clear_for tb (length tok - 1) s'
      | None => true
      end && separated tb s'
  end.

(** A value the token [y] cannot run into: wherever the value stands, an
    occurrence of [y] ends in front of it or starts behind it. *)
Definition inert (y v : text) : Prop :=
  (forall p q, startswith y (p ++ v ++ q) = true -> length y <= length p) /\
  (forall i q, 0 < i < length v -> startswith y (drop i v ++ q) = false).

Definition tokens_nonempty (tb : table) : Prop :=
  Forall (fun e : text * text => fst e <> []) tb.

(** Every value of the table is inert for every token of the table. *)
Definition all_inert (tb : table) : Prop :=
  forall y v y' v', In (y, v) tb -> In (y', v') tb -> inert y v'.

Definition is_token_char (c : ascii) : bool :=
  in_range "A" "Z" c || Ascii.eqb c underscore.

(** Upper-case letters and underscores between two double underscores. *)
Definition token_shaped (y : text) : bool :=
  startswith (T "__") y && startswith (T "__") (rev y) &&
  forallb is_token_char y.

(** A value with a character no token has, without a double underscore,
    and with no underscore at either end. *)
Definition inert_value (v : text) : bool :=
  negb (forallb is_token_char v) &&
  negb (contains (T "__") v) &&
  negb (startswith [underscore] v) &&
  negb (startswith [underscore] (rev v)).

End Subst.

(** ** Path names ([posixpath]) *)

Module Path.

(** [(p[:i], p[i:])] for [i = p.rfind("/") + 1]. *)
Fixpoint split_last_slash (p : text) : text * text :=
  match p with
  | [] => ([], [])
  | c :: p' =>
      let (h, t) := split_last_slash p' in
      match h with
      | [] => if Ascii.eqb c slash then ([c], t) else ([], c :: t)
      | _ :: _ => (c :: h, t)
      end
  end.

Definition all_slashes (p : text) : bool := forallb (Ascii.eqb slash) p.

Definition has_slash (p : text) : bool := existsb (Ascii.eqb slash) p.

(** [os.path.split] *)
Definition split (p : text) : text * text :=
  let (h, t) := split_last_slash p in
  (if all_slashes h then h else rstrip slash h, t).

Definition dirname (p : text) : text := fst (split p).
Definition basename (p : text) : text := snd (split p).

Definition ends_with_slash (p : text) : bool :=
  match last p with
  | Some c => Ascii.eqb c slash
  | None => false
  end.

(** [os.path.join(a, b)] *)
Definition join2 (a b : text) : text :=
  if startswith [slash] b then b
  else if match a with [] => true | _ => ends_with_slash a end then a ++ b
  else a ++ slash :: b.

(** [os.path.join(a, *bs)] *)
Definition join (a : text) (bs : list text) : text := fold_left join2 bs a.

End Path.

(** ** File system *)

Module FS.

Inductive node :=
| File (content : text)
| Dir
| Symlink (target : text).

Inductive os_error :=
| FileExistsError
| FileNotFoundError
| NotADirectoryError
| IsADirectoryError
| TooManyLinks.

(** The exceptions of the program. [ValueError fmt args] is the
    [ValueError] raised with the message [fmt] formatted with [args]. *)
Inductive exn :=
| ValueError (fmt : string) (args : list text)
| AttributeError (name : string)
| OSError (kind : os_error) (path : text)
| CalledProcessError (cmd : list text)
| OtherError (message : text).

Inductive res (A : Type) :=
| Ok (a : A)
| Raise (e : exn).
Arguments Ok {A} a.
Arguments Raise {A} e.

Abbreviation fs := (gmap text node).

(** A computation reads and updates the file system and returns or raises;
    what it wrote before raising stays written. *)
Definition M (A : Type) : Type := fs -> res A * fs.

Definition ret {A} (a : A) : M A := fun m => (Ok a, m).
Definition raise {A} (e : exn) : M A := fun m => (Raise e, m).
Definition bind {A B} (c : M A) (k : A -> M B) : M B :=
  fun m =>
    match c m with
    | (Ok a, m') => k a m'
    | (Raise e, m') => (Raise e, m')
    end.
Definition get_fs : M fs := fun m => (Ok m, m).
Definition lift {A} (r : res A) : M A := fun m => (r, m).

(** [getattr(context, name)] of an attribute that may not have been set. *)
Definition attr {A} (name : string) (o : option A) : M A :=
  match o with
  | Some a => ret a
  | None => raise (AttributeError name)
  end.

(** The longest chain of symbolic links the system follows. *)
Definition max_links : nat := 40.

(** The path a name resolves to: symbolic links are followed, a relative
    target being taken from the directory of the link. [None] when the
    chain is too long. *)
Fixpoint follow (fuel : nat) (m : fs) (p : text) : option text :=
  match m !! p with
  | Some (Symlink tgt) =>
      match fuel with
      | O => None
      | S k => follow k m (Path.join2 (Path.dirname p) tgt)
      end
  | _ => Some p
  end.

(** [os.stat]: the node a name resolves to, if any. *)
Definition stat (m : fs) (p : text) : option node :=
  match follow max_links m p with
  | Some q => m !! q
  | None => None
  end.

(** [os.path.exists], [os.path.islink], [os.path.isfile], [os.path.isdir] *)
Definition exists_ (m : fs) (p : text) : bool :=
  match stat m p with
  | Some _ => true
  | None => false
  end.

Definition islink (m : fs) (p : text) : bool :=
  match m !! p with
  | Some (Symlink _) => true
  | _ => false
  end.

Definition isfile (m : fs) (p : text) : bool :=
  match stat m p with
  | Some (File _) => true
  | _ => false
  end.

Definition isdir (m : fs) (p : text) : bool :=
  match stat m p with
  | Some Dir => true
  | _ => false
  end.

(** The directory an entry is created in has to be there: a name without
    a directory part is created in the current directory. *)
Definition parent_ready (m : fs) (p : text) : res unit :=
  match Path.dirname p with
  | [] => Ok tt
  | d =>
      match stat m d with
      | Some Dir => Ok tt
      | Some _ => Raise (OSError NotADirectoryError p)
      | None => Raise (OSError FileNotFoundError p)
      end
  end.

(** [os.mkdir] *)
Definition mkdir (p : text) : M unit :=
  fun m =>
    match m !! p with
    | Some _ => (Raise (OSError FileExistsError p), m)
    | None =>
        match parent_ready m p with
        | Ok _ => (Ok tt, <[p := Dir]> m)
        | Raise e => (Raise e, m)
        end
    end.

(** [os.makedirs(name)] with [exist_ok=False]: the missing parents first
    (a parent that appears meanwhile is no error), then the leaf. *)
Fixpoint makedirs_rec (fuel : nat) (name : text) : M unit :=
  match fuel with
  | O => raise (OSError TooManyLinks name)
  | S k =>
      let (head, tail) := Path.split name in
      let (head, tail) :=
        match tail with
        | [] => Path.split head
        | _ :: _ => (head, tail)
        end in
      bind get_fs (fun m =>
      match head, tail with
      | _ :: _, _ :: _ =>
          if exists_ m head then mkdir name
          else
            bind (fun m0 =>
                    match makedirs_rec k head m0 with
                    | (Raise (OSError FileExistsError _), m1) => (Ok tt, m1)
                    | r => r
                    end) (fun _ =>
            if bool_decide (tail = T ".") then ret tt else mkdir name)
      | _, _ => mkdir name
      end)
  end.

Definition makedirs (name : text) : M unit :=
  makedirs_rec (S (length name)) name.

(** [open(p, "w")] followed by one [write] of [data]. *)
Definition put_fs_file (p : text) (data : text) : M unit :=
  fun m => (Ok tt, <[p := File data]> m).

(** An open file: the path the name resolved to when it was opened. *)
Abbreviation handle := text.

Definition resolve (p : text) : M text :=
  fun m =>
    match follow max_links m p with
    | Some q => (Ok q, m)
    | None => (Raise (OSError TooManyLinks p), m)
    end.

(** [open(p)] for reading, [open(p, "r+")]: the file has to exist. *)
Definition open_existing (p : text) : M handle :=
  bind (resolve p) (fun q m =>
    match m !! q with
    | Some (File _) => (Ok q, m)
    | Some _ => (Raise (OSError IsADirectoryError p), m)
    | None => (Raise (OSError FileNotFoundError p), m)
    end).

(** [open(p, "a")]: the file is created empty when it is not there. *)
Definition open_append (p : text) : M handle :=
  bind (resolve p) (fun q m =>
    match m !! q with
    | Some (File _) => (Ok q, m)
    | Some _ => (Raise (OSError IsADirectoryError p), m)
    | None =>
        match parent_ready m q with
        | Ok _ => (Ok q, <[q := File []]> m)
        | Raise e => (Raise e, m)
        end
    end).

(** What a file opened for appending starts from: what it holds, or
    nothing when [open] creates it. *)
Definition appends_to (m : fs) (q old : text) : Prop :=
  m !! q = Some (File old) \/
  (m !! q = None /\ parent_ready m q = Ok tt /\ old = []).

Definition content (m : fs) (h : handle) : text :=
  match m !! h with
  | Some (File c) => c
  | _ => []
  end.

(** [f.read()] from the start of the file. *)
Definition read (h : handle) : M text := fun m => (Ok (content m h), m).

(** [f.write(data)] on a file opened for appending. *)
Definition write_end (h : handle) (data : text) : M unit :=
  fun m => (Ok tt, <[h := File (content m h ++ data)]> m).

(** [f.seek(pos); f.write(data)]: the characters from [pos] on are
    overwritten one for one, the file grows when [data] reaches past its
    end, and nothing is cut off. *)
Definition overwrite (pos : nat) (data old : text) : text :=
  take pos old ++ data ++ drop (pos + length data) old.

Definition write_at (h : handle) (pos : nat) (data : text) : M unit :=
  fun m => (Ok tt, <[h := File (overwrite pos data (content m h))]> m).

End FS.

Notation "x <- c ;; k" := (FS.bind c (fun x => k))
  (at level 100, c at next level, right associativity).
Notation "c ;;; k" := (FS.bind c (fun _ => k))
  (at level 100, right associativity).

(** ** The builder *)

Module Venvr.
Import FS.

(** What the program reads of the interpreter and of the system it runs
    on. [check_output cmd] is [subprocess.check_output(cmd, text=True)]. *)
Record sysenv := {
  sys_platform_win32 : bool;
  sys_version : text;
  sys_version_info : nat * nat;
  sys_has_base_prefix : bool;
  module_file : text;
  abspath : text -> text;
  check_output : list text -> res text;
}.

(** The attributes of [VenvrBuilder] ([EnvBuilder]'s and its own). *)
Record builder := {
  system_site_packages : bool;
  clear : bool;
  symlinks : bool;
  upgrade : bool;
  with_pip : bool;
  prompt : option text;
  convert_to_venvr : bool;
  r_system_site_packages : bool;
}.

(** The context of one build. [env_dir], [bin_path] and [python_exe] are
    set by [EnvBuilder.ensure_directories]; the others are attributes that
    are added later, if at all. *)
Record context := {
  env_dir : text;
  bin_path : text;
  python_exe : text;
  cfg_path : option text;
  r_home : option text;
  r_exec : option text;
  rscript_exec : option text;
  r_version : option (list text);
  lib_name : option text;
}.

Definition set_cfg_path (c : context) (p : text) : context :=
  {| env_dir := env_dir c; bin_path := bin_path c; python_exe := python_exe c;
     cfg_path := Some p;
     r_home := r_home c; r_exec := r_exec c; rscript_exec := rscript_exec c;
     r_version := r_version c; lib_name := lib_name c |}.

Definition set_lib_name (c : context) (n : text) : context :=
  {| env_dir := env_dir c; bin_path := bin_path c; python_exe := python_exe c;
     cfg_path := cfg_path c;
     r_home := r_home c; r_exec := r_exec c; rscript_exec := rscript_exec c;
     r_version := r_version c; lib_name := Some n |}.

(** The dictionary [get_r_info] returns. *)
Record r_info := {
  R_HOME : text;
  R : text;
  Rscript : text;
  version : list text;
}.

Definition set_r_info (c : context) (i : r_info) : context :=
  {| env_dir := env_dir c; bin_path := bin_path c; python_exe := python_exe c;
     cfg_path := cfg_path c;
     r_home := Some (R_HOME i); r_exec := Some (R i);
     rscript_exec := Some (Rscript i); r_version := Some (version i);
     lib_name := lib_name c |}.

(** The methods of [venv.EnvBuilder] the program calls and does not
    define. [host_create] is [EnvBuilder.create]; it calls back into the
    two methods [VenvrBuilder] overrides, which it gets as arguments. *)
Record host := {
  host_ensure_directories : builder -> text -> M context;
  host_create_configuration : builder -> context -> M context;
  host_symlink_or_copy : builder -> text -> text -> M unit;
  host_replace_variables : builder -> text -> context -> text;
  host_create :
    builder -> (context -> M context) -> (context -> M context) -> text -> M unit;
}.

Section Program.

Variable sys : sysenv.
Variable H : host.

Definition cat_rv : text :=
  T "cat(R.version$major, R.version$minor, sep=" ++ [dquote; dot; dquote] ++ T ")".

Definition get_r_info : M r_info :=
  out <- lift (check_output sys [T "R"; T "RHOME"]) ;;
  let r_home := rstrip newline out in
  let r_bin_path := Path.join r_home [T "bin"] in
  let r_bin_path :=
    if sys_platform_win32 sys && contains (T "64 bit") (sys_version sys)
    then Path.join r_bin_path [T "x64"] else r_bin_path in
  let r_exec := Path.join r_bin_path [T "R"] in
  let rscript_exec := Path.join r_bin_path [T "Rscript"] in
  m <- get_fs ;;
  if negb (exists_ m r_exec && exists_ m rscript_exec)
  then raise (ValueError "Could not find the R or Rscript executable." [])
  else
    rv <- lift (check_output sys [rscript_exec; T "--vanilla"; T "-e"; cat_rv]) ;;
    if negb (Re.match_version rv)
    then raise (ValueError "Invalid R version: '%s'" [rv])
    else ret {| R_HOME := r_home; R := r_exec; Rscript := rscript_exec;
                version := split_on dot rv |}.

(** The directory [get_r_info] looks for the two executables in. *)
Definition r_bin_path (r_home : text) : text :=
  let r_bin_path := Path.join r_home [T "bin"] in
  if sys_platform_win32 sys && contains (T "64 bit") (sys_version sys)
  then Path.join r_bin_path [T "x64"] else r_bin_path.

(** The dictionary [get_r_info] makes of what [R RHOME] and [Rscript]
    printed. *)
Definition r_info_of (out rv : text) : r_info :=
  let r_home := rstrip newline out in
  {| R_HOME := r_home;
     R := Path.join (r_bin_path r_home) [T "R"];
     Rscript := Path.join (r_bin_path r_home) [T "Rscript"];
     version := split_on dot rv |}.

(** The three lines of the configuration file, as the three [f.write]
    calls format them. *)
Definition r_home_line (r_home : text) : text :=
  T "
R-home = " ++ r_home ++ [newline].

Definition incl_text (flag : bool) : text :=
  if flag then T "true" else T "false".

Definition include_line (flag : bool) : text :=
  T "R-include-system-packages = " ++ incl_text flag ++ [newline].

Definition version_line (r_version : list text) : text :=
  T "R-version = " ++ Text.join [dot] r_version ++ [newline].

(** The text the three writes add to the file. *)
Definition appended (h : text) (flag : bool) (v : list text) : text :=
  r_home_line h ++ include_line flag ++ version_line v.

(** The [with open(context.cfg_path, "a")] block of
    [create_configuration]. *)
Definition append_configuration (b : builder) (c : context) : M unit :=
  p <- attr "cfg_path" (cfg_path c) ;;
  f <- open_append p ;;
  h <- attr "r_home" (r_home c) ;;
  write_end f (r_home_line h) ;;;
  write_end f (include_line (r_system_site_packages b)) ;;;
  v <- attr "r_version" (r_version c) ;;
  write_end f (version_line v).

Definition create_configuration (b : builder) (c : context) (convert : bool)
  : M context :=
  c <- (if negb convert then host_create_configuration H b c else ret c) ;;
  c <- (match r_home c with
        | None => info <- get_r_info ;; ret (set_r_info c info)
        | Some _ => ret c
        end) ;;
  append_configuration b c ;;;
  ret c.

Definition VENVR_SYSTEM_PACKAGES : text := T "__VENVR_SYSTEM_PACKAGES__".
Definition VENVR_R_HOME : text := T "__VENVR_R_HOME__".
Definition VENVR_PY_EXEC : text := T "__VENVR_PY_EXEC__".
Definition VENVR_LIB_NAME : text := T "__VENVR_LIB_NAME__".

(** The tokens [replace_variables] knows, with their values. *)
Definition venvr_tokens : list text :=
  [VENVR_SYSTEM_PACKAGES; VENVR_R_HOME; VENVR_PY_EXEC; VENVR_LIB_NAME].

Definition venvr_table (incl r_home py_exec lib : text) : Subst.table :=
  [ (VENVR_SYSTEM_PACKAGES, incl); (VENVR_R_HOME, r_home);
    (VENVR_PY_EXEC, py_exec); (VENVR_LIB_NAME, lib) ].

(** The four [text.replace] calls of [replace_variables], in their order. *)
Definition replace_venvr (incl r_home py_exec lib : text) (txt : text) : text :=
  let txt := str_replace VENVR_SYSTEM_PACKAGES incl txt in
  let txt := str_replace VENVR_R_HOME r_home txt in
  let txt := str_replace VENVR_PY_EXEC py_exec txt in
  let txt := str_replace VENVR_LIB_NAME lib txt in
  txt.

Definition replace_variables (b : builder) (txt : text) (c : context) : M text :=
  let txt := host_replace_variables H b txt c in
  if contains (T "__VENVR_") txt
  then
    h <- attr "r_home" (r_home c) ;;
    l <- attr "lib_name" (lib_name c) ;;
    ret (replace_venvr (incl_text (r_system_site_packages b)) h (python_exe c) l txt)
  else ret txt.

Definition libdir : text := if sys_platform_win32 sys then T "Lib" else T "lib".

Definition r_libdir (r_version : list text) : text :=
  T "R" ++ Text.join [dot] (take 2 r_version).

Definition libpath (env_dir : text) (r_version : list text) : text :=
  Path.join env_dir [libdir; r_libdir r_version].

(** The error of [post_setup] for a library path that is taken. *)
Definition unable_to_create (libpath : text) : exn :=
  ValueError "Unable to create directory %r" [libpath].

(** [post_setup], first part: the library directory of this R version. *)
Definition post_setup_directories (b : builder) (c : context) : M context :=
  let c := set_lib_name c libdir in
  v <- attr "r_version" (r_version c) ;;
  let libpath := libpath (env_dir c) v in
  m <- get_fs ;;
  (if negb (exists_ m libpath) then makedirs libpath
   else if islink m libpath || isfile m libpath
   then raise (unable_to_create libpath)
   else ret tt) ;;;
  ret c.

(** [post_setup], second part: the two executables of R. *)
Definition post_setup_r (b : builder) (c : context) : M unit :=
  e1 <- attr "r_exec" (r_exec c) ;;
  e2 <- attr "rscript_exec" (rscript_exec c) ;;
  host_symlink_or_copy H b e1 (Path.join (bin_path c) [Path.basename e1]) ;;;
  host_symlink_or_copy H b e2 (Path.join (bin_path c) [Path.basename e2]).

(** The text written over the activation script. *)
Definition compose (py_script r_script : text) : text :=
  Re.sub_deactivate py_script ++ r_script.

(** [post_setup], third part: the activation script. *)
Definition srcfile : text :=
  let path := abspath sys (Path.dirname (module_file sys)) in
  Path.join path [T "scripts"; T "common"; T "activate"].

Definition dstfile (c : context) : text :=
  Path.join (bin_path c) [T "activate"].

Definition post_setup_scripts (b : builder) (c : context) : M unit :=
  f <- open_existing srcfile ;;
  r_script <- read f ;;
  r_script <- replace_variables b r_script c ;;
  f <- open_existing (dstfile c) ;;
  py_script <- read f ;;
  write_at f 0 (compose py_script r_script).

Definition post_setup (b : builder) (c : context) : M context :=
  c <- post_setup_directories b c ;;
  post_setup_r b c ;;;
  post_setup_scripts b c ;;;
  ret c.

(** The error of [create] for a directory that is no environment. *)
Definition not_an_environment (env_dir : text) : exn :=
  ValueError "This doesn't look like a Python virtual env: %s" [env_dir].

(** [VenvrBuilder.create] *)
Definition create (b : builder) (env_dir : text) : M unit :=
  if convert_to_venvr b then
    let env_dir := abspath sys env_dir in
    let cfg_path := Path.join env_dir [T "pyvenv.cfg"] in
    m <- get_fs ;;
    if negb (exists_ m cfg_path)
    then raise (not_an_environment env_dir)
    else
      c <- host_ensure_directories H b env_dir ;;
      let c := set_cfg_path c cfg_path in
      c <- create_configuration b c true ;;
      _ <- post_setup b c ;;
      ret tt
  else
    host_create H b
      (fun c => create_configuration b c false)
      (fun c => post_setup b c)
      env_dir.

(** [builds b ds m m']: built one after the other from [m], the
    directories [ds] all succeed and leave [m']. *)
Inductive builds (b : builder) : list text -> fs -> fs -> Prop :=
| builds_nil (m : fs) : builds b [] m m
| builds_cons (d : text) (ds : list text) (m m1 m2 : fs) :
    create b d m = (Ok tt, m1) ->
    builds b ds m1 m2 ->
    builds b (d :: ds) m m2.

(** What [parser.parse_args] returns. *)
Record options := {
  dirs : list text;
  opt_convert : bool;
  opt_system_site : option text;
  opt_symlinks : bool;
  opt_clear : bool;
  opt_upgrade : bool;
  opt_with_pip : bool;
  opt_prompt : option text;
}.

(** [options.system_site in choices] *)
Definition system_site_in (o : options) (choices : list text) : bool :=
  match opt_system_site o with
  | Some v => bool_decide (v ∈ choices)
  | None => false
  end.

Definition compatible : bool :=
  let (major, minor) := sys_version_info sys in
  if (major <? 3) || ((major =? 3) && (minor <? 3)) then false
  else if negb (sys_has_base_prefix sys) then false
  else true.

Definition err_msg : string := "you cannot supply --{} and --clear together.".

Definition make_builder (o : options) : builder :=
  {| convert_to_venvr := opt_convert o;
     system_site_packages := system_site_in o [T "both"; T "python"];
     r_system_site_packages := system_site_in o [T "both"; T "r"];
     clear := opt_clear o;
     symlinks := opt_symlinks o;
     upgrade := opt_upgrade o;
     with_pip := opt_with_pip o;
     prompt := opt_prompt o |}.

(** [for d in options.dirs: builder.create(d)] *)
Fixpoint create_each (b : builder) (ds : list text) : M unit :=
  match ds with
  | [] => ret tt
  | d :: ds' => create b d ;;; create_each b ds'
  end.

(** [main], from the parsed options on. *)
Definition main (o : options) : M unit :=
  if negb compatible
  then raise (ValueError "This script is only for use with Python >= 3.3" [])
  else if opt_convert o && opt_clear o
  then raise (ValueError err_msg [T "convert-to-venvr"])
  else if opt_upgrade o && opt_clear o
  then raise (ValueError err_msg [T "upgrade"])
  else create_each (make_builder o) (dirs o).

(** The [__main__] block: the exit status, and the exception printed on
    the error stream, if any. *)
Definition run (o : options) (m : fs) : nat * option exn * fs :=
  match main o m with
  | (Ok _, m') => (0, None, m')
  | (Raise e, m') => (1, Some e, m')
  end.

Definition exit_status (o : options) (m : fs) : nat := fst (fst (run o m)).

End Program.

(** The function [create] of the module: a builder of its arguments, and
    its [create]. *)
Module Toplevel.

Definition create (sys : sysenv) (H : host) (env_dir : text)
    (system_site_packages clear symlinks with_pip : bool)
    (prompt : option text)
    (convert_to_venvr r_system_site_packages : bool) : M unit :=
  let builder :=
    {| system_site_packages := system_site_packages;
       clear := clear;
       symlinks := symlinks;
       upgrade := false;
       with_pip := with_pip;
       prompt := prompt;
       convert_to_venvr := convert_to_venvr;
       r_system_site_packages := r_system_site_packages |} in
  create sys H builder env_dir.

End Toplevel.

End Venvr.

(** ** A small system to run the program on *)

Module Demo.
Import FS Venvr.

Definition r_home_out : text := T "/usr/lib/R
".

Definition sys : sysenv :=
  {| sys_platform_win32 := false;
     sys_version := T "3.11.4 (main) [GCC 12.2.0]";
     sys_version_info := (3, 11);
     sys_has_base_prefix := true;
     module_file := T "/pkg/venvr/__init__.py";
     abspath := fun p => p;
     check_output := fun cmd =>
       if bool_decide (cmd = [T "R"; T "RHOME"]) then Ok r_home_out
       else if bool_decide (head cmd = Some (T "/usr/lib/R/bin/Rscript")) then Ok (T "4.3.1")
       else Raise (CalledProcessError cmd) |}.

Definition ensure_directories (b : builder) (d : text) : M context :=
  ret {| env_dir := d; bin_path := Path.join d [T "bin"]; python_exe := T "python3";
         cfg_path := None; r_home := None; r_exec := None; rscript_exec := None;
         r_version := None; lib_name := None |}.

Definition py_configuration (b : builder) (c : context) : M context :=
  let p := Path.join (env_dir c) [T "pyvenv.cfg"] in
  put_fs_file p (T "home = /usr/bin
") ;;;
  ret (set_cfg_path c p).

Definition symlink (b : builder) (src dst : text) : M unit :=
  fun m => (Ok tt, <[dst := Symlink src]> m).

Definition host_ : host :=
  {| host_ensure_directories := ensure_directories;
     host_create_configuration := py_configuration;
     host_symlink_or_copy := symlink;
     host_replace_variables := fun b txt c =>
       str_replace (T "__VENV_DIR__") (env_dir c) txt;
     host_create := fun b create_configuration post_setup d =>
       c <- ensure_directories b d ;;
       c <- create_configuration c ;;
       _ <- post_setup c ;;
       ret tt |}.

Definition template : text := T "deactivate () {
    deactivate_py
    unset R_HOME
}
R_HOME=__VENVR_R_HOME__
R_LIBS_USER=__VENV_DIR__/__VENVR_LIB_NAME__
R_INCLUDE_SYSTEM=__VENVR_SYSTEM_PACKAGES__
RETICULATE_PYTHON=__VENVR_PY_EXEC__
".

Definition activate : text := T "deactivate () {
    unset VIRTUAL_ENV
}
deactivate nondestructive
deactivate_custom () { :; }
".

Definition pyvenv_cfg : text := T "home = /usr/bin
include-system-site-packages = false
".

(** [/b] holds a Python environment, [/a] is an empty directory. *)
Definition disk : fs :=
  list_to_map
    [ (T "/usr/lib/R/bin/R", File (T "#!R"));
      (T "/usr/lib/R/bin/Rscript", File (T "#!Rscript"));
      (T "/pkg/venvr/scripts/common/activate", File template);
      (T "/a", Dir);
      (T "/b", Dir);
      (T "/b/pyvenv.cfg", File pyvenv_cfg);
      (T "/b/bin", Dir);
      (T "/b/bin/activate", File activate) ].

Definition opts (ds : list text) (convert clear : bool) : options :=
  {| dirs := ds; opt_convert := convert; opt_system_site := None;
     opt_symlinks := true; opt_clear := clear; opt_upgrade := false;
     opt_with_pip := true; opt_prompt := None |}.

Definition convert_builder : builder := make_builder (opts [] true false).

(** The context of the build in [/b] once R has been located. *)
Definition ctx : context :=
  {| env_dir := T "/b"; bin_path := T "/b/bin"; python_exe := T "python3";
     cfg_path := Some (T "/b/pyvenv.cfg");
     r_home := Some (T "/usr/lib/R");
     r_exec := Some (T "/usr/lib/R/bin/R");
     rscript_exec := Some (T "/usr/lib/R/bin/Rscript");
     r_version := Some [T "4"; T "3"; T "1"];
     lib_name := None |}.

(** The disk with a library directory in [/b], and with a symbolic link
    to a directory that is gone in the place of the R library. *)
Definition disk_lib : fs := <[T "/b/lib" := Dir]> disk.

Definition disk_dangling : fs :=
  <[T "/b/lib/R4.3" := Symlink (T "/gone/R4.3")]> disk_lib.

(** The disk with a regular file in the place of the R library. *)
Definition disk_conflict : fs :=
  <[T "/b/lib/R4.3" := File (T "not a directory")]> disk_lib.

(** The context [ensure_directories] returns for [/b]. *)
Definition ctx0 : context :=
  {| env_dir := T "/b"; bin_path := T "/b/bin"; python_exe := T "python3";
     cfg_path := None; r_home := None; r_exec := None; rscript_exec := None;
     r_version := None; lib_name := None |}.

(** A context for an R that lives in a directory named like a token. *)
Definition ctx_nested : context :=
  {| env_dir := T "/b"; bin_path := T "/b/bin"; python_exe := T "python3";
     cfg_path := Some (T "/b/pyvenv.cfg");
     r_home := Some (T "/opt/__VENVR_R_HOME__/R");
     r_exec := Some (T "/opt/__VENVR_R_HOME__/R/bin/R");
     rscript_exec := Some (T "/opt/__VENVR_R_HOME__/R/bin/Rscript");
     r_version := Some [T "4"; T "3"; T "1"];
     lib_name := Some (T "lib") |}.

(** The same context once [post_setup] has set the library name. *)
Definition ctx_lib : context := set_lib_name ctx (T "lib").

(** What [get_r_info] finds on this system. *)
Definition info : r_info :=
  {| R_HOME := T "/usr/lib/R";
     R := T "/usr/lib/R/bin/R";
     Rscript := T "/usr/lib/R/bin/Rscript";
     version := [T "4"; T "3"; T "1"] |}.

(** Another environment, on another disk, with the same configuration. *)
Definition disk_c : fs :=
  list_to_map [ (T "/c", Dir); (T "/c/pyvenv.cfg", File pyvenv_cfg) ].

Definition ctx_c : context :=
  {| env_dir := T "/c"; bin_path := T "/c/bin"; python_exe := T "python3.12";
     cfg_path := Some (T "/c/pyvenv.cfg");
     r_home := Some (T "/usr/lib/R");
     r_exec := Some (T "/opt/R/bin/R");
     rscript_exec := Some (T "/opt/R/bin/Rscript");
     r_version := Some [T "4"; T "3"; T "1"];
     lib_name := Some (T "lib") |}.

Definition copy_builder : builder :=
  {| system_site_packages := true; clear := false; symlinks := false;
     upgrade := false; with_pip := false; prompt := Some (T "venvr");
     convert_to_venvr := false; r_system_site_packages := false |}.

End Demo.

(** * Properties *)

Import FS Venvr.

(** ** Text *)

Section TextFacts.

Lemma ascii_eqb_true (a b : ascii) : Ascii.eqb a b = true <-> a = b.
Proof. apply Ascii.eqb_eq. Qed.

Lemma split_on_cons (sep : ascii) (s : text) :
  exists w ws, split_on sep s = w :: ws.
Proof.
  destruct s as [|c s]; simpl; [eauto|].
  destruct (Ascii.eqb c sep); [eauto|].
  destruct (split_on sep s); eauto.
Qed.



Lemma lines_cons (c : ascii) (s : text) :
  exists l ls, lines (c :: s) = l :: ls.
Proof.
  simpl. destruct (Ascii.eqb c newline); [eauto|].
  destruct (lines s); simpl; eauto.
Qed.

Lemma terminated_cons (c c' : ascii) (s : text) :
  terminated (c :: c' :: s) = terminated (c' :: s).
Proof. reflexivity. Qed.

(** A line without a newline in it, ended by one, is one line. *)
Lemma lines_line (a t : text) :
  has_newline a = false -> lines (a ++ newline :: t) = a :: lines t.
Proof.
  induction a as [|c a IH]; intros Hn; [reflexivity|].
  unfold has_newline in *. cbn [existsb] in Hn.
  apply orb_false_iff in Hn as [Hc Ha].
  cbn [app lines]. rewrite Ascii.eqb_sym in Hc. rewrite Hc.
  now rewrite (IH Ha).
Qed.

(** A newline after [s] ends the last line of [s], or adds an empty line
    when [s] is empty or its last line was ended already. *)
Lemma lines_app_newline (s t : text) :
  lines (s ++ newline :: t) =
  (if terminated s then lines s ++ [[]] else lines s) ++ lines t.
Proof.
  induction s as [|c s IH]; [reflexivity|].
  change (lines ((c :: s) ++ newline :: t))
    with (if Ascii.eqb c newline then [] :: lines (s ++ newline :: t)
          else cons_line c (lines (s ++ newline :: t))).
  rewrite IH. clear IH.
  destruct s as [|c' s].
  - unfold terminated. simpl. destruct (Ascii.eqb c newline); reflexivity.
  - rewrite terminated_cons.
    destruct (lines_cons c' s) as (l & ls & Hl).
    change (lines (c :: c' :: s))
      with (if Ascii.eqb c newline then [] :: lines (c' :: s)
            else cons_line c (lines (c' :: s))).
    rewrite Hl.
    destruct (Ascii.eqb c newline), (terminated (c' :: s)); reflexivity.
Qed.

Lemma has_newline_app (a b : text) :
  has_newline (a ++ b) = has_newline a || has_newline b.
Proof. apply existsb_app. Qed.

Lemma has_newline_join (v : list text) :
  Forall (fun w => has_newline w = false) v ->
  has_newline (Text.join [dot] v) = false.
Proof.
  induction 1 as [|w ws Hw _ IH]; [reflexivity|].
  destruct ws as [|w' ws]; [exact Hw|].
  change (Text.join [dot] (w :: w' :: ws))
    with (w ++ [dot] ++ Text.join [dot] (w' :: ws)).
  rewrite !has_newline_app, Hw, IH. reflexivity.
Qed.

End TextFacts.

(** ** The configuration writer *)

Section Configuration.

Variable sys : sysenv.
Variable H : host.

Lemma content_insert (m : fs) (q : text) (x : text) :
  content (<[q := File x]> m) q = x.
Proof. unfold content. now rewrite lookup_insert_eq. Qed.

Lemma content_lookup (m : fs) (q : text) (x : text) :
  m !! q = Some (File x) -> content m q = x.
Proof. unfold content. now intros ->. Qed.

(** Opened for appending, the configuration file gets the text of the
    three writes at its end, and nothing else changes. *)
Lemma append_configuration_ok (b : builder) (c : context) (m : fs)
    (p q old h : text) (v : list text) :
  cfg_path c = Some p ->
  follow max_links m p = Some q ->
  appends_to m q old ->
  r_home c = Some h ->
  r_version c = Some v ->
  append_configuration b c m =
    (Ok tt, <[q := File (old ++ appended h (r_system_site_packages b) v)]> m).
Proof.
  intros Hp Hq Hold Hh Hv.
  unfold append_configuration. rewrite Hp, Hh, Hv.
  unfold bind, attr, ret, open_append, resolve, bind. rewrite Hq.
  destruct Hold as [Hold|(Hnone & Hpar & ->)].
  - rewrite Hold. unfold write_end. rewrite (content_lookup _ _ _ Hold).
    rewrite !content_insert. rewrite !insert_insert_eq.
    unfold appended. now rewrite <- !app_assoc.
  - rewrite Hnone, Hpar. unfold write_end.
    rewrite !content_insert. rewrite !insert_insert_eq.
    unfold appended. now rewrite <- !app_assoc.
Qed.

Lemma appended_eq (h : text) (flag : bool) (v : list text) :
  appended h flag v =
    newline :: (T "R-home = " ++ h) ++
    newline :: (T "R-include-system-packages = " ++ incl_text flag) ++
    newline :: (T "R-version = " ++ Text.join [dot] v) ++
    newline :: [].
Proof.
  unfold appended, r_home_line, include_line, version_line.
  rewrite <- !app_assoc. reflexivity.
Qed.

(** The lines of a file after the three writes. *)
Lemma lines_appended (old h : text) (flag : bool) (v : list text) :
  has_newline h = false ->
  Forall (fun w => has_newline w = false) v ->
  lines (old ++ appended h flag v) =
    (if terminated old then lines old ++ [[]] else lines old) ++
    [ T "R-home = " ++ h;
      T "R-include-system-packages = " ++ incl_text flag;
      T "R-version = " ++ Text.join [dot] v ].
Proof.
  intros Hh Hv. rewrite appended_eq, lines_app_newline. f_equal.
  rewrite lines_line by (rewrite has_newline_app, Hh; reflexivity).
  rewrite lines_line by (destruct flag; reflexivity).
  rewrite lines_line
    by (rewrite has_newline_app, (has_newline_join v Hv); reflexivity).
  reflexivity.
Qed.

(** C1 (as amended). The configuration writer appends a newline and then
    three lines in fixed order: the install-root line, the lower-case
    [true]/[false] system-package line and the dotted version line
    (install root and version components being free of newlines). A file
    that is empty or ends with a newline and has N lines has N+4 lines
    afterwards, the first N unchanged, then an empty line, then the three;
    a file whose last line is not ended has N+3, the newline ending that
    line. No other file changes. *)
Theorem C1_configuration_lines (b : builder) (c : context) (m : fs)
    (p q old h : text) (v : list text) :
  cfg_path c = Some p ->
  follow max_links m p = Some q ->
  m !! q = Some (File old) ->
  r_home c = Some h ->
  r_version c = Some v ->
  has_newline h = false ->
  Forall (fun w => has_newline w = false) v ->
  exists m',
    append_configuration b c m = (Ok tt, m') /\
    (forall q', q' <> q -> m' !! q' = m !! q') /\
    lines (content m' q) =
      (if terminated old then lines old ++ [[]] else lines old) ++
      [ T "R-home = " ++ h;
        T "R-include-system-packages = " ++ incl_text (r_system_site_packages b);
        T "R-version = " ++ Text.join [dot] v ] /\
    length (lines (content m' q)) =
      length (lines old) + (if terminated old then 4 else 3).
Proof.
  intros Hp Hq Hold Hh Hv Hnh Hnv.
  eexists. split.
  { apply (append_configuration_ok b c m p q old h v); try assumption. now left. }
  split.
  { intros q' Hne. now rewrite lookup_insert_ne. }
  rewrite content_insert, lines_appended by assumption.
  split; [reflexivity|].
  destruct (terminated old); rewrite !length_app; simpl; lia.
Qed.

(** C8. The text the writer adds is a function of the install root, the
    version and the flag alone: two runs with the same three, on files
    that start out the same (or are both created), leave the same
    content, whatever else differs between the builders, the contexts and
    the file systems. *)
Theorem C8_configuration_deterministic (b1 b2 : builder) (c1 c2 : context)
    (m1 m2 : fs) (p1 q1 p2 q2 old h : text) (v : list text) :
  cfg_path c1 = Some p1 -> follow max_links m1 p1 = Some q1 ->
  appends_to m1 q1 old ->
  cfg_path c2 = Some p2 -> follow max_links m2 p2 = Some q2 ->
  appends_to m2 q2 old ->
  r_home c1 = Some h -> r_home c2 = Some h ->
  r_version c1 = Some v -> r_version c2 = Some v ->
  r_system_site_packages b1 = r_system_site_packages b2 ->
  exists m1' m2',
    append_configuration b1 c1 m1 = (Ok tt, m1') /\
    append_configuration b2 c2 m2 = (Ok tt, m2') /\
    content m1' q1 = content m2' q2 /\
    content m1' q1 = old ++ appended h (r_system_site_packages b1) v.
Proof.
  intros Hp1 Hq1 Ho1 Hp2 Hq2 Ho2 Hh1 Hh2 Hv1 Hv2 Hflag.
  do 2 eexists. split; [|split].
  - eapply append_configuration_ok; eauto.
  - eapply append_configuration_ok; eauto.
  - rewrite !content_insert, Hflag. split; reflexivity.
Qed.


End Configuration.

(** ** The activation script composer *)

Section Composer.

Lemma startswith_spec (t s : text) :
  startswith t s = true <-> exists q, s = t ++ q.
Proof.
  revert s. induction t as [|a t IH]; intros s; simpl.
  - split; eauto.
  - destruct s as [|b s].
    + split; [discriminate|]. intros [q Hq]. discriminate.
    + rewrite andb_true_iff, ascii_eqb_true, IH. split.
      * intros [-> [q ->]]. eauto.
      * intros [q [= -> ->]]. eauto.
Qed.

Lemma startswith_app (t q : text) : startswith t (t ++ q) = true.
Proof. apply startswith_spec. eauto. Qed.















Section Scripts.

Variable sys : sysenv.
Variable H : host.




End Scripts.

End Composer.

(** ** The directory provisioner *)

Section Provisioner.

Variable sys : sysenv.

Lemma split_last_slash_plain (r : text) :
  Path.has_slash r = false -> Path.split_last_slash r = ([], r).
Proof.
  induction r as [|c r IH]; [reflexivity|].
  unfold Path.has_slash. cbn [existsb]. intros Hr.
  apply orb_false_iff in Hr as [Hc Hr].
  cbn [Path.split_last_slash]. rewrite (IH Hr).
  rewrite Ascii.eqb_sym in Hc. now rewrite Hc.
Qed.

(** The last slash of [x/r] is the one in front of [r] when [r] has none. *)
Lemma split_last_slash_app (x r : text) :
  Path.has_slash r = false ->
  Path.split_last_slash (x ++ slash :: r) = (x ++ [slash], r).
Proof.
  intros Hr. induction x as [|c x IH].
  - cbn [app Path.split_last_slash]. rewrite (split_last_slash_plain r Hr).
    reflexivity.
  - cbn [app Path.split_last_slash]. rewrite IH.
    destruct x; reflexivity.
Qed.

Lemma rstrip_snoc (c : ascii) (x : text) :
  rstrip c (x ++ [c]) = rstrip c x.
Proof.
  induction x as [|a x IH].
  - cbn [app rstrip]. now rewrite Ascii.eqb_refl.
  - cbn [app rstrip]. now rewrite IH.
Qed.

Lemma rstrip_keep (c e : ascii) (x : text) :
  last x = Some e -> Ascii.eqb e c = false -> rstrip c x = x.
Proof.
  intros Hl He. induction x as [|a x IH]; [reflexivity|].
  cbn [rstrip]. destruct x as [|a' x].
  - injection Hl as ->. cbn [rstrip]. now rewrite He.
  - rewrite last_cons_cons in Hl. rewrite (IH Hl). reflexivity.
Qed.

Lemma all_slashes_last (e : ascii) (x : text) :
  last x = Some e -> Ascii.eqb e slash = false -> Path.all_slashes x = false.
Proof.
  intros Hl He. apply last_Some in Hl as [x' ->].
  unfold Path.all_slashes. rewrite forallb_app. cbn [forallb].
  rewrite Ascii.eqb_sym, He. now rewrite andb_false_r.
Qed.

(** [os.path.split] of [x/r]: [x] and [r], when [x] does not end with a
    slash and [r] has none. *)
Lemma split_app (e : ascii) (x r : text) :
  last x = Some e -> Ascii.eqb e slash = false ->
  Path.has_slash r = false ->
  Path.split (x ++ slash :: r) = (x, r).
Proof.
  intros Hl He Hr. unfold Path.split.
  rewrite (split_last_slash_app x r Hr).
  assert (Path.all_slashes (x ++ [slash]) = false) as ->.
  { unfold Path.all_slashes. rewrite forallb_app.
    fold (Path.all_slashes x). now rewrite (all_slashes_last e x Hl He). }
  now rewrite rstrip_snoc, (rstrip_keep slash e x Hl He).
Qed.

(** The library path is the library directory, a slash, and the name of
    the R library. *)
Lemma libpath_eq (env : text) (v : list text) :
  libpath sys env v = Path.join env [libdir sys] ++ slash :: r_libdir v /\
  last (Path.join env [libdir sys]) = Some "b"%char.
Proof.
  assert (startswith [slash] (libdir sys) = false) as Hrel
    by (unfold libdir; destruct (sys_platform_win32 sys); reflexivity).
  assert (last (libdir sys) = Some "b"%char) as Hb
    by (unfold libdir; destruct (sys_platform_win32 sys); reflexivity).
  assert (last (Path.join env [libdir sys]) = Some "b"%char) as Hlast.
  { unfold Path.join. cbn [fold_left]. unfold Path.join2. rewrite Hrel.
    destruct (match env with [] => true | _ => Path.ends_with_slash env end).
    - now rewrite last_app, Hb.
    - rewrite last_app. rewrite last_cons.
      now rewrite Hb. }
  split; [|exact Hlast].
  unfold libpath. change (Path.join env [libdir sys; r_libdir v])
    with (Path.join2 (Path.join env [libdir sys]) (r_libdir v)).
  unfold Path.join2 at 1.
  change (startswith [slash] (r_libdir v)) with false. cbv iota.
  unfold Path.ends_with_slash. rewrite Hlast.
  destruct (Path.join env [libdir sys]) eqn:Hj; [discriminate|].
  reflexivity.
Qed.

Lemma stat_not_link (m : fs) (p : text) (n : node) :
  m !! p = Some n -> islink m p = false -> stat m p = Some n.
Proof.
  unfold islink, stat, max_links. cbn [follow]. intros Hn. rewrite Hn.
  destruct n; [| |discriminate]; intros _; exact Hn.
Qed.

Lemma skip_digits_spec (s : text) :
  exists a, s = a ++ Re.skip_digits s /\ forallb is_digit a = true.
Proof.
  induction s as [|c s [a [Ha Hd]]]; [now exists []|].
  cbn [Re.skip_digits]. destruct (is_digit c) eqn:Hc.
  - exists (c :: a). cbn [app forallb]. rewrite Hc, Hd. split; [|reflexivity].
    now rewrite <- Ha.
  - now exists [].
Qed.

Lemma digits1_spec (s r : text) :
  Re.digits1 s = Some r ->
  exists a, s = a ++ r /\ forallb is_digit a = true.
Proof.
  destruct s as [|c s]; [discriminate|]. cbn [Re.digits1].
  destruct (is_digit c) eqn:Hc; [|discriminate]. intros [= <-].
  destruct (skip_digits_spec s) as [a [Ha Hd]].
  exists (c :: a). cbn [app forallb]. rewrite Hc, Hd. split; [|reflexivity].
  now rewrite <- Ha.
Qed.

Lemma split_on_digits (a r : text) :
  forallb is_digit a = true ->
  split_on dot (a ++ dot :: r) = a :: split_on dot r.
Proof.
  induction a as [|c a IH]; [reflexivity|].
  cbn [forallb]. intros Hd. apply andb_true_iff in Hd as [Hc Ha].
  cbn [app split_on]. rewrite (IH Ha).
  destruct (Ascii.eqb c dot) eqn:Hdot; [|reflexivity].
  apply Ascii.eqb_eq in Hdot. subst c. discriminate.
Qed.

Lemma has_slash_digits (a : text) :
  forallb is_digit a = true -> Path.has_slash a = false.
Proof.
  induction a as [|c a IH]; [reflexivity|].
  cbn [forallb]. intros Hd. apply andb_true_iff in Hd as [Hc Ha].
  unfold Path.has_slash in *. cbn [existsb]. rewrite (IH Ha), orb_false_r.
  destruct (Ascii.eqb slash c) eqn:Hs; [|reflexivity].
  apply Ascii.eqb_eq in Hs. subst c. discriminate.
Qed.



Lemma stat_absent (m : fs) (p : text) :
  m !! p = None -> stat m p = None.
Proof. unfold stat, max_links. cbn [follow]. intros Hn. now rewrite Hn. Qed.



(** A plain directory in the place of the library: nothing to do, nothing
    done. *)
Lemma provision_plain_directory (b : builder) (c : context) (v : list text)
    (m : fs) :
  r_version c = Some v ->
  m !! libpath sys (env_dir c) v = Some Dir ->
  post_setup_directories sys b c m = (Ok (set_lib_name c (libdir sys)), m).
Proof.
  intros Hv Hd. unfold post_setup_directories.
  cbn [r_version env_dir set_lib_name]. rewrite Hv.
  unfold bind, attr, ret, get_fs.
  assert (islink m (libpath sys (env_dir c) v) = false) as Hl
    by (unfold islink; now rewrite Hd).
  pose proof (stat_not_link m _ _ Hd Hl) as Hs.
  unfold exists_, isfile. rewrite Hs, Hl. reflexivity.
Qed.

(** A symbolic link that leads somewhere, or a regular file, in the place
    of the library: the error of [post_setup], and nothing done. *)
Lemma provision_conflict (b : builder) (c : context) (v : list text) (m : fs) :
  r_version c = Some v ->
  exists_ m (libpath sys (env_dir c) v) = true ->
  islink m (libpath sys (env_dir c) v) || isfile m (libpath sys (env_dir c) v) = true ->
  post_setup_directories sys b c m =
    (Raise (unable_to_create (libpath sys (env_dir c) v)), m).
Proof.
  intros Hv He Hc. unfold post_setup_directories.
  cbn [r_version env_dir set_lib_name]. rewrite Hv.
  unfold bind, attr, ret, get_fs, raise. now rewrite He, Hc.
Qed.

(** Nothing in the place of the library, in a library directory that is
    there: the directory of the library is made, and nothing else. *)
Lemma provision_absent (b : builder) (c : context) (v : list text) (m : fs) :
  r_version c = Some v ->
  Path.has_slash (r_libdir v) = false ->
  m !! libpath sys (env_dir c) v = None ->
  isdir m (Path.join (env_dir c) [libdir sys]) = true ->
  post_setup_directories sys b c m =
    (Ok (set_lib_name c (libdir sys)), <[libpath sys (env_dir c) v := Dir]> m).
Proof.
  intros Hv Hr Hn Hd. unfold post_setup_directories.
  cbn [r_version env_dir set_lib_name]. rewrite Hv.
  unfold bind at 1. unfold attr, ret. unfold bind at 1. unfold get_fs.
  unfold exists_ at 1. rewrite (stat_absent m _ Hn). cbn [negb].
  destruct (libpath_eq (env_dir c) v) as [Hp Hlast].
  assert (Path.split (libpath sys (env_dir c) v) =
          (Path.join (env_dir c) [libdir sys], r_libdir v)) as Hsplit.
  { rewrite Hp. now apply (split_app "b"%char). }
  assert (makedirs (libpath sys (env_dir c) v) m =
          (Ok tt, <[libpath sys (env_dir c) v := Dir]> m)) as Hmk.
  { assert (mkdir (libpath sys (env_dir c) v) m =
            (Ok tt, <[libpath sys (env_dir c) v := Dir]> m)) as Hmkdir.
    { unfold mkdir. rewrite Hn. unfold parent_ready, Path.dirname.
      rewrite Hsplit. cbn [fst]. unfold isdir in Hd.
      destruct (Path.join (env_dir c) [libdir sys]) as [|x0 x];
        [discriminate|].
      destruct (stat m (x0 :: x)) as [[]|]; try discriminate.
      reflexivity. }
    assert (exists t, r_libdir v = "R"%char :: t) as [t Ht]
      by (eexists; reflexivity).
    unfold makedirs. cbn [makedirs_rec]. rewrite Hsplit, Ht.
    destruct (Path.join (env_dir c) [libdir sys]) as [|x0 x] eqn:Hx;
      [discriminate|].
    unfold bind, get_fs.
    assert (exists_ m (x0 :: x) = true) as ->.
    { unfold isdir in Hd. unfold exists_. now destruct (stat m (x0 :: x)). }
    exact Hmkdir. }
  unfold bind. now rewrite Hmk.
Qed.


(** Run again after it made the directory, the provisioner finds it and
    leaves the file system alone. *)
Lemma provision_twice (b : builder) (c : context) (v : list text) (m : fs) :
  r_version c = Some v ->
  Path.has_slash (r_libdir v) = false ->
  m !! libpath sys (env_dir c) v = None ->
  isdir m (Path.join (env_dir c) [libdir sys]) = true ->
  exists c' m',
    post_setup_directories sys b c m = (Ok c', m') /\
    post_setup_directories sys b c m' = (Ok c', m').
Proof.
  intros Hv Hr Hn Hd. do 2 eexists. split.
  - apply (provision_absent b c v m); assumption.
  - apply (provision_plain_directory b c v); [assumption|].
    apply lookup_insert_eq.
Qed.

End Provisioner.

(** ** The command line driver *)

Section Driver.

Variable sys : sysenv.
Variable H : host.

(** C3. Asked to convert a directory in which [pyvenv.cfg] does not exist,
    [create] raises its [ValueError] for a directory that is no
    environment (the NotAnEnvironmentError of the specification) and has
    written nothing: the file system is the one it started from. So does
    a whole run whose first directory is such a one. *)
Theorem C3_convert_requires_environment (b : builder) (d : text) (m : fs) :
  convert_to_venvr b = true ->
  exists_ m (Path.join (abspath sys d) [T "pyvenv.cfg"]) = false ->
  create sys H b d m = (Raise (not_an_environment (abspath sys d)), m) /\
  forall (o : options) (ds : list text),
    compatible sys = true ->
    opt_convert o = true -> opt_clear o = false -> dirs o = d :: ds ->
    run sys H o m = (1, Some (not_an_environment (abspath sys d)), m).
Proof.
  intros Hc He.
  assert (forall b', convert_to_venvr b' = true ->
            create sys H b' d m = (Raise (not_an_environment (abspath sys d)), m))
    as Hcreate.
  { intros b' Hb'. unfold create. rewrite Hb'.
    unfold bind, get_fs. now rewrite He. }
  split; [now apply Hcreate|].
  intros o ds Hcompat Hconv Hclear Hdirs.
  unfold run, main. rewrite Hcompat, Hconv, Hclear, Hdirs.
  rewrite !andb_false_r. cbn [negb andb create_each]. unfold bind.
  rewrite Hcreate; [reflexivity|exact Hconv].
Qed.

(** C7. With [--clear] and one of [--convert-to-venvr] and [--upgrade],
    [main] raises the [ValueError] that names the conflict (the
    ArgumentConflictError of the specification) before it has made a
    builder or touched a directory: the file system is unchanged and the
    exit status is 1. The interpreter is one [main] accepts. *)
Theorem C7_argument_conflict (o : options) (m : fs) :
  compatible sys = true ->
  opt_clear o = true ->
  opt_convert o = true \/ opt_upgrade o = true ->
  let flag := if opt_convert o then T "convert-to-venvr" else T "upgrade" in
  main sys H o m = (Raise (ValueError err_msg [flag]), m) /\
  run sys H o m = (1, Some (ValueError err_msg [flag]), m).
Proof.
  intros Hcompat Hclear Hor flag.
  assert (main sys H o m = (Raise (ValueError err_msg [flag]), m)) as Hmain.
  { unfold main, flag. rewrite Hcompat, Hclear. cbn [negb].
    destruct (opt_convert o); [reflexivity|].
    destruct Hor as [Hx|Hu]; [discriminate|]. now rewrite Hu. }
  split; [assumption|]. unfold run. now rewrite Hmain.
Qed.

Lemma create_each_builds (b : builder) (ds : list text) (m m' : fs) :
  create_each sys H b ds m = (Ok tt, m') <-> builds sys H b ds m m'.
Proof.
  split.
  - revert m. induction ds as [|d ds IH]; intros m.
    + intros [= <-]. constructor.
    + cbn [create_each]. unfold bind.
      destruct (create sys H b d m) as [[[]|e] m1] eqn:Hd; [|discriminate].
      intros Hrest. econstructor; eauto.
  - induction 1 as [|d ds m m1 m2 Hd _ IH]; [reflexivity|].
    cbn [create_each]. unfold bind. now rewrite Hd.
Qed.

(** The first build that fails ends the loop: what comes after it in the
    list has no part in the outcome. *)
Lemma create_each_first_failure (b : builder) (ds1 ds2 : list text) (d : text)
    (m m1 m2 : fs) (e : exn) :
  builds sys H b ds1 m m1 ->
  create sys H b d m1 = (Raise e, m2) ->
  create_each sys H b (ds1 ++ d :: ds2) m = (Raise e, m2).
Proof.
  induction 1 as [|d' ds m m' m1 Hd _ IH]; intros Hfail.
  - cbn [app create_each]. unfold bind. now rewrite Hfail.
  - cbn [app create_each]. unfold bind. rewrite Hd. now apply IH.
Qed.

Lemma create_each_outcome (b : builder) (ds : list text) (m : fs) :
  (exists m', builds sys H b ds m m' /\ create_each sys H b ds m = (Ok tt, m')) \/
  (exists ds1 d ds2 m1 m2 e,
     ds = ds1 ++ d :: ds2 /\ builds sys H b ds1 m m1 /\
     create sys H b d m1 = (Raise e, m2) /\
     create_each sys H b ds m = (Raise e, m2)).
Proof.
  revert m. induction ds as [|d ds IH]; intros m.
  - left. exists m. split; [constructor|reflexivity].
  - destruct (create sys H b d m) as [[[]|e] m1] eqn:Hd.
    + destruct (IH m1) as [(m' & Hb & He)|(ds1 & d' & ds2 & m2 & m3 & e & -> & Hb & Hf & He)].
      * left. exists m'. split; [econstructor; eauto|].
        cbn [create_each]. unfold bind. now rewrite Hd.
      * right. exists (d :: ds1), d', ds2, m2, m3, e.
        split; [reflexivity|]. split; [econstructor; eauto|].
        split; [assumption|].
        cbn [create_each]. unfold bind. now rewrite Hd.
    + right. exists [], d, ds, m, m1, e.
      split; [reflexivity|]. split; [constructor|]. split; [assumption|].
      cbn [create_each]. unfold bind. now rewrite Hd.
Qed.

(** C2 (as amended). The directories are built one after the other, in
    the order given, and the first build that raises ends the run: the
    directories behind it are not attempted and what was built before it
    stays. The exit status is 0 when every build succeeded and 1 when one
    raised, and it is never anything else. *)
Theorem C2_sequential_fail_fast (o : options) (m : fs) :
  compatible sys = true ->
  opt_convert o && opt_clear o = false ->
  opt_upgrade o && opt_clear o = false ->
  (forall m', builds sys H (make_builder o) (dirs o) m m' ->
     run sys H o m = (0, None, m')) /\
  (forall ds1 d ds2 m1 m2 e,
     dirs o = ds1 ++ d :: ds2 ->
     builds sys H (make_builder o) ds1 m m1 ->
     create sys H (make_builder o) d m1 = (Raise e, m2) ->
     run sys H o m = (1, Some e, m2)) /\
  (exit_status sys H o m = 0 <->
     exists m', builds sys H (make_builder o) (dirs o) m m') /\
  (exit_status sys H o m = 1 <->
     exists ds1 d ds2 m1 m2 e,
       dirs o = ds1 ++ d :: ds2 /\
       builds sys H (make_builder o) ds1 m m1 /\
       create sys H (make_builder o) d m1 = (Raise e, m2)).
Proof.
  intros Hcompat Hcc Huc.
  assert (main sys H o m = create_each sys H (make_builder o) (dirs o) m) as Hmain.
  { unfold main. now rewrite Hcompat, Hcc, Huc. }
  assert (forall m', builds sys H (make_builder o) (dirs o) m m' ->
            run sys H o m = (0, None, m')) as Hok.
  { intros m' Hb. apply create_each_builds in Hb.
    unfold run. now rewrite Hmain, Hb. }
  assert (forall ds1 d ds2 m1 m2 e,
            dirs o = ds1 ++ d :: ds2 ->
            builds sys H (make_builder o) ds1 m m1 ->
            create sys H (make_builder o) d m1 = (Raise e, m2) ->
            run sys H o m = (1, Some e, m2)) as Hfail.
  { intros ds1 d ds2 m1 m2 e Hd Hb Hf.
    unfold run. rewrite Hmain, Hd.
    now rewrite (create_each_first_failure _ ds1 ds2 d m m1 m2 e Hb Hf). }
  split; [exact Hok|]. split; [exact Hfail|].
  unfold exit_status.
  destruct (create_each_outcome (make_builder o) (dirs o) m)
    as [(m' & Hb & He)|(ds1 & d & ds2 & m1 & m2 & e & Hd & Hb & Hf & He)].
  - rewrite (Hok m' Hb). cbn [fst]. split; split.
    + intros _. eauto.
    + reflexivity.
    + discriminate.
    + intros (ds1 & d & ds2 & m1 & m2 & e & Hd & Hb' & Hf).
      pose proof (Hok m' Hb) as Hr.
      rewrite (Hfail _ _ _ _ _ _ Hd Hb' Hf) in Hr. discriminate.
  - rewrite (Hfail _ _ _ _ _ _ Hd Hb Hf). cbn [fst]. split; split.
    + discriminate.
    + intros [m' Hb']. pose proof (Hok m' Hb') as Hr.
      rewrite (Hfail _ _ _ _ _ _ Hd Hb Hf) in Hr. discriminate.
    + intros _. exists ds1, d, ds2, m1, m2, e. auto.
    + reflexivity.
Qed.

End Driver.

(** ** The placeholder resolver *)

Section Resolver.

Import Subst.

Lemma startswith_short (y u a b : text) :
  length y <= length u -> startswith y (u ++ a) = startswith y (u ++ b).
Proof.
  revert u. induction y as [|c y IH]; intros u Hl; [reflexivity|].
  destruct u as [|d u]; [simpl in Hl; lia|].
  cbn [app startswith]. rewrite (IH u); [reflexivity|simpl in Hl; lia].
Qed.

Lemma find_token_Some (tb : table) (s x v : text) :
  find_token tb s = Some (x, v) ->
  In (x, v) tb /\ exists q, s = x ++ q.
Proof.
  intros Hf. apply find_some in Hf as [Hin Hs].
  split; [assumption|]. now apply startswith_spec in Hs.
Qed.

Lemma find_token_None (tb : table) (s x v : text) :
  find_token tb s = None -> In (x, v) tb -> startswith x s = false.
Proof. intros Hf Hin. exact (find_none _ _ Hf (x, v) Hin). Qed.

Lemma find_token_app (tb1 tb2 : table) (s : text) :
  find_token (tb1 ++ tb2) s =
  match find_token tb1 s with
  | Some e => Some e
  | None => find_token tb2 s
  end.
Proof.
  unfold find_token. induction tb1 as [|e tb1 IH]; [reflexivity|].
  cbn [app find]. destruct (startswith (fst e) s); [reflexivity|exact IH].
Qed.

Lemma resolve_from_skip (tb : table) (p q : text) :
  resolve_from tb (length p) (p ++ q) = resolve_from tb 0 q.
Proof. induction p as [|c p IH]; [reflexivity|exact IH]. Qed.

Lemma resolve_match (tb : table) (x v q : text) :
  x <> [] ->
  find_token tb (x ++ q) = Some (x, v) ->
  resolve tb (x ++ q) = v ++ resolve tb q.
Proof.
  intros Hx Hf. destruct x as [|c x]; [congruence|].
  unfold resolve. cbn [app resolve_from]. cbn [app] in Hf. rewrite Hf.
  cbn [length]. rewrite Nat.sub_succ, Nat.sub_0_r.
  now rewrite resolve_from_skip.
Qed.

Lemma resolve_step (tb : table) (c : ascii) (s : text) :
  find_token tb (c :: s) = None ->
  resolve tb (c :: s) = c :: resolve tb s.
Proof. intros Hf. unfold resolve. cbn [resolve_from]. now rewrite Hf. Qed.

(** How one pass goes on at the head of a text. *)
Lemma resolve_cases (tb : table) (s : text) :
  tokens_nonempty tb ->
  s = [] \/
  (exists x v q,
     In (x, v) tb /\ x <> [] /\ s = x ++ q /\
     find_token tb s = Some (x, v) /\
     resolve tb s = v ++ resolve tb q) \/
  (exists c s',
     s = c :: s' /\ find_token tb s = None /\
     resolve tb s = c :: resolve tb s').
Proof.
  intros Hne. destruct s as [|c s]; [now left|right].
  destruct (find_token tb (c :: s)) as [[x v]|] eqn:Hf.
  - left. destruct (find_token_Some _ _ _ _ Hf) as [Hin [q Hq]].
    assert (x <> []) as Hx.
    { unfold tokens_nonempty in Hne. rewrite Forall_forall in Hne.
      exact (Hne (x, v) ltac:(now apply list_elem_of_In)). }
    exists x, v, q.
    split; [assumption|]. split; [assumption|]. split; [assumption|].
    split; [reflexivity|].
    rewrite Hq in *. now apply resolve_match.
  - right. exists c, s.
    split; [reflexivity|]. split; [reflexivity|].
    now apply resolve_step.
Qed.

Lemma replace_from_resolve (x v : text) (k : nat) (s : text) :
  replace_from x v k s = resolve_from [(x, v)] k s.
Proof.
  revert k. induction s as [|c s IH]; intros k; [reflexivity|].
  destruct k as [|k]; cbn [replace_from resolve_from]; [|apply IH].
  unfold find_token. cbn [find fst].
  destruct (startswith x (c :: s)); now rewrite IH.
Qed.

Lemma str_replace_resolve (x v s : text) :
  x <> [] -> str_replace x v s = resolve [(x, v)] s.
Proof.
  intros Hx. destruct x as [|c x]; [congruence|].
  unfold str_replace, resolve. apply replace_from_resolve.
Qed.

Lemma contains_app_r (t a s : text) :
  contains t s = true -> contains t (a ++ s) = true.
Proof.
  intros Hs. induction a as [|c a IH]; [assumption|].
  cbn [app contains]. rewrite IH. apply orb_true_r.
Qed.

Lemma contains_app_cases (t a b : text) :
  contains t (a ++ b) = true ->
  (exists i, i < length a /\ startswith t (drop i a ++ b) = true) \/
  contains t b = true.
Proof.
  induction a as [|c a IH]; [now right|].
  cbn [app contains]. intros Hc. apply orb_true_iff in Hc as [Hc|Hc].
  - left. exists 0. split; [simpl; lia|exact Hc].
  - destruct (IH Hc) as [(i & Hi & Hs)|Hb]; [|now right].
    left. exists (S i). split; [simpl; lia|exact Hs].
Qed.

Lemma contains_nil (t : text) : t <> [] -> contains t [] = false.
Proof. destruct t; [congruence|reflexivity]. Qed.

(** What a token starts in the output of a pass, it started in the input:
    an inert value cannot complete it. *)
Lemma resolve_prefix (tb : table) (y : text) :
  tokens_nonempty tb ->
  Forall (fun e : text * text => inert y (snd e)) tb ->
  forall s u,
    startswith y (u ++ resolve tb s) = true ->
    startswith y (u ++ s) = true.
Proof.
  intros Hne Hin. induction s as [|c s IH]; intros u Hs; [exact Hs|].
  destruct (resolve_cases tb (c :: s) Hne)
    as [Hnil|[(x & v & q & Hx & Hxne & Heq & Hf & Hr)|(c' & s' & Heq & Hf & Hr)]].
  - discriminate.
  - rewrite Hr in Hs.
    assert (inert y v) as [F1 _].
    { rewrite Forall_forall in Hin.
      exact (Hin (x, v) ltac:(now apply list_elem_of_In)). }
    pose proof (F1 u (resolve tb q) Hs) as Hl.
    rewrite (startswith_short y u (c :: s) (v ++ resolve tb q) Hl). exact Hs.
  - injection Heq as <- <-. rewrite Hr in Hs.
    change (u ++ c :: resolve tb s) with (u ++ [c] ++ resolve tb s) in Hs.
    rewrite app_assoc in Hs. apply IH in Hs.
    now rewrite <- app_assoc in Hs.
Qed.

(** A pass with inert values brings no token into the text that was not
    there, and leaves none of its own. *)
Lemma resolve_contains (tb : table) (y : text) :
  y <> [] ->
  tokens_nonempty tb ->
  Forall (fun e : text * text => inert y (snd e)) tb ->
  forall n s,
    length s <= n ->
    contains y (resolve tb s) = true ->
    contains y s = true /\ forall v, ~ In (y, v) tb.
Proof.
  intros Hy Hne Hin. induction n as [|n IH]; intros s Hn Hc.
  { destruct s; [|simpl in Hn; lia].
    change (resolve tb []) with (@nil ascii) in Hc.
    now rewrite (contains_nil y Hy) in Hc. }
  destruct (resolve_cases tb s Hne)
    as [->|[(x & v & q & Hx & Hxne & -> & Hf & Hr)|(c & s' & -> & Hf & Hr)]].
  - change (resolve tb []) with (@nil ascii) in Hc.
    now rewrite (contains_nil y Hy) in Hc.
  - rewrite Hr in Hc.
    assert (inert y v) as [F1 F2].
    { rewrite Forall_forall in Hin.
      exact (Hin (x, v) ltac:(now apply list_elem_of_In)). }
    apply contains_app_cases in Hc as [(i & Hi & Hs)|Hc].
    + destruct i as [|i].
      * rewrite drop_0 in Hs. pose proof (F1 [] (resolve tb q) Hs) as Hl.
        destruct y; [congruence|simpl in Hl; lia].
      * rewrite F2 in Hs by lia. discriminate.
    + rewrite length_app in Hn.
      assert (length x <> 0) by (destruct x; [congruence|simpl; lia]).
      destruct (IH q ltac:(lia) Hc) as [Hq Hnot].
      split; [now apply contains_app_r|exact Hnot].
  - rewrite Hr in Hc. cbn [contains] in Hc.
    apply orb_true_iff in Hc as [Hc|Hc].
    + pose proof (resolve_prefix tb y Hne Hin s' [c] Hc) as Hs.
      cbn [app] in Hs. split.
      * cbn [contains]. rewrite Hs. reflexivity.
      * intros v Hv. rewrite (find_token_None _ _ _ _ Hf Hv) in Hs. discriminate.
    + simpl in Hn. destruct (IH s' ltac:(lia) Hc) as [Hq Hnot].
      split; [|exact Hnot]. cbn [contains]. rewrite Hq. apply orb_true_r.
Qed.

Lemma inert_prefix_false (y v t : text) (i : nat) :
  y <> [] -> inert y v -> i < length v ->
  startswith y (drop i v ++ t) = false.
Proof.
  intros Hy [F1 F2] Hi. destruct i as [|i]; [|apply F2; lia].
  rewrite drop_0. destruct (startswith y (v ++ t)) eqn:Hs; [|reflexivity].
  pose proof (F1 [] t Hs) as Hl. destruct y; [congruence|simpl in Hl; lia].
Qed.

(** The four calls leave no token of the table in the text when the
    values are inert. *)
Lemma replace_all_clean (y : text) (tb : table) :
  y <> [] ->
  tokens_nonempty tb ->
  Forall (fun e : text * text => inert y (snd e)) tb ->
  forall s,
    contains y s = false \/ In y (map fst tb) ->
    contains y (replace_all tb s) = false.
Proof.
  intros Hy. induction tb as [|[x v] tb IH]; intros Hne Hin s Hs.
  - destruct Hs as [Hs|[]]. exact Hs.
  - apply Forall_cons in Hne as [Hx Hne]. apply Forall_cons in Hin as [Hv Hin].
    cbn [fst snd] in Hx, Hv.
    change (replace_all ((x, v) :: tb) s) with (replace_all tb (str_replace x v s)).
    rewrite (str_replace_resolve x v s Hx).
    assert (tokens_nonempty [(x, v)]) as Hne1 by (repeat constructor; exact Hx).
    assert (Forall (fun e : text * text => inert y (snd e)) [(x, v)]) as Hin1
      by (constructor; [exact Hv|constructor]).
    apply (IH Hne Hin).
    destruct (contains y (resolve [(x, v)] s)) eqn:Hc; [|now left].
    destruct (resolve_contains [(x, v)] y Hy Hne1 Hin1 (length s) s
                ltac:(reflexivity) Hc) as [Hys Hnot].
    destruct Hs as [Hs|Hs]; [congruence|].
    cbn [map fst In] in Hs. destruct Hs as [<-|Hs]; [|now right].
    exfalso. apply (Hnot v). now left.
Qed.

Lemma replace_from_absent (x v s : text) :
  contains x s = false -> replace_from x v 0 s = s.
Proof.
  induction s as [|c s IH]; [reflexivity|].
  cbn [contains replace_from]. intros Hc.
  apply orb_false_iff in Hc as [Hs Hc]. now rewrite Hs, (IH Hc).
Qed.

(** A text in which no token of the table occurs comes back as it is. *)
Lemma replace_all_absent (tb : table) (s : text) :
  tokens_nonempty tb ->
  (forall x, In x (map fst tb) -> contains x s = false) ->
  replace_all tb s = s.
Proof.
  induction tb as [|[x v] tb IH]; intros Hne Hs; [reflexivity|].
  apply Forall_cons in Hne as [Hx Hne]. cbn [fst] in Hx.
  change (replace_all ((x, v) :: tb) s) with (replace_all tb (str_replace x v s)).
  assert (str_replace x v s = s) as ->.
  { destruct x as [|c x]; [congruence|]. apply replace_from_absent.
    apply Hs. now left. }
  apply IH; [exact Hne|]. intros x' Hx'. apply Hs. now right.
Qed.

Lemma clear_for_spec (tb : table) (n : nat) (s : text) (i : nat) :
  clear_for tb n s = true -> i < n -> find_token tb (drop i s) = None.
Proof.
  revert s i. induction n as [|n IH]; intros s i Hc Hi; [lia|].
  cbn [clear_for] in Hc.
  destruct (find_token tb s) eqn:Hf; [discriminate|].
  destruct s as [|c s]; [now rewrite drop_nil|].
  destruct i as [|i]; [exact Hf|].
  cbn [drop]. apply IH; [exact Hc|lia].
Qed.

Lemma clear_for_sub (tb1 tb2 : table) (n : nat) (s : text) :
  clear_for (tb1 ++ tb2) n s = true -> clear_for tb1 n s = true.
Proof.
  revert s. induction n as [|n IH]; intros s; [reflexivity|].
  cbn [clear_for]. rewrite find_token_app.
  destruct (find_token tb1 s); [discriminate|].
  destruct (find_token tb2 s); [discriminate|].
  destruct s; [reflexivity|apply IH].
Qed.

Lemma separated_prefix (tb1 tb2 : table) (s : text) :
  separated (tb1 ++ tb2) s = true -> separated tb1 s = true.
Proof.
  induction s as [|c s IH]; [reflexivity|].
  cbn [separated]. rewrite find_token_app. intros Hs.
  apply andb_true_iff in Hs as [Hh Ht]. rewrite (IH Ht), andb_true_r.
  destruct (find_token tb1 (c :: s)) as [[x v]|]; [|reflexivity].
  now apply clear_for_sub in Hh.
Qed.

Lemma separated_drop (tb : table) (p q : text) :
  separated tb (p ++ q) = true -> separated tb q = true.
Proof.
  induction p as [|c p IH]; [trivial|].
  cbn [app separated]. intros Hs. apply andb_true_iff in Hs as [_ Ht]. auto.
Qed.

(** Where no token starts, a pass copies. *)
Lemma resolve_clear (tb : table) (n : nat) (s : text) :
  (forall i, i < n -> find_token tb (drop i s) = None) ->
  n <= length s ->
  resolve tb s = take n s ++ resolve tb (drop n s).
Proof.
  revert s. induction n as [|n IH]; intros s Hc Hn; [reflexivity|].
  destruct s as [|c s]; [simpl in Hn; lia|].
  rewrite resolve_step by (apply (Hc 0); lia).
  cbn [take drop app]. f_equal. apply IH; [|simpl in Hn; lia].
  intros i Hi. apply (Hc (S i)). lia.
Qed.

(** Where the token does not start, [str.replace] copies. *)
Lemma str_replace_copy (x v u t : text) :
  x <> [] ->
  (forall i, i < length u -> startswith x (drop i u ++ t) = false) ->
  str_replace x v (u ++ t) = u ++ str_replace x v t.
Proof.
  intros Hx. destruct x as [|a x]; [congruence|]. unfold str_replace.
  induction u as [|c u IH]; intros Hc; [reflexivity|].
  cbn [app replace_from]. pose proof (Hc 0 ltac:(simpl; lia)) as H0.
  rewrite drop_0 in H0. cbn [app] in H0. rewrite H0. f_equal.
  apply IH. intros i Hi. apply (Hc (S i)). simpl. lia.
Qed.

Lemma str_replace_match (x v t : text) :
  x <> [] -> str_replace x v (x ++ t) = v ++ str_replace x v t.
Proof.
  intros Hx. rewrite !(str_replace_resolve x v) by assumption.
  apply resolve_match; [assumption|].
  unfold find_token. cbn [find fst]. now rewrite startswith_app.
Qed.

Lemma resolve_empty (s : text) : resolve [] s = s.
Proof.
  induction s as [|c s IH]; [reflexivity|].
  rewrite resolve_step by reflexivity. now rewrite IH.
Qed.

(** One more [str.replace] after a pass is the pass with one more entry,
    on a text whose tokens do not overlap. *)
Lemma replace_after_resolve (done : table) (x v : text) :
  x <> [] ->
  tokens_nonempty done ->
  Forall (fun e : text * text => inert x (snd e)) done ->
  forall n s,
    length s <= n ->
    separated (done ++ [(x, v)]) s = true ->
    str_replace x v (resolve done s) = resolve (done ++ [(x, v)]) s.
Proof.
  intros Hx Hne Hin. induction n as [|n IH]; intros s Hn Hsep.
  { destruct s; [|simpl in Hn; lia]. destruct x; [congruence|reflexivity]. }
  destruct (resolve_cases done s Hne)
    as [->|[(xk & vk & q & Hk & Hkne & -> & Hf & Hr)|(c & s' & -> & Hf & Hr)]].
  - destruct x; [congruence|reflexivity].
  - rewrite Hr.
    assert (inert x vk) as Hvk.
    { rewrite Forall_forall in Hin.
      exact (Hin (xk, vk) ltac:(now apply list_elem_of_In)). }
    rewrite str_replace_copy; [|assumption|].
    2:{ intros i Hi. now apply inert_prefix_false. }
    rewrite (resolve_match (done ++ [(x, v)]) xk vk q Hkne).
    2:{ rewrite find_token_app. now rewrite Hf. }
    f_equal. apply IH; [|now apply separated_drop in Hsep].
    rewrite length_app in Hn.
    assert (length xk <> 0) by (destruct xk; [congruence|simpl; lia]). lia.
  - rewrite Hr.
    assert (find_token (done ++ [(x, v)]) (c :: s') =
            if startswith x (c :: s') then Some (x, v) else None) as Hfull.
    { rewrite find_token_app, Hf. reflexivity. }
    destruct (startswith x (c :: s')) eqn:Hxs.
    + apply startswith_spec in Hxs as [q Hq].
      cbn [separated] in Hsep. rewrite Hfull in Hsep.
      apply andb_true_iff in Hsep as [Hclear Hsep].
      assert (resolve done (c :: s') = x ++ resolve done q) as Hd.
      { rewrite (resolve_clear done (length x) (c :: s')).
        - rewrite Hq. now rewrite take_app_length, drop_app_length.
        - intros i Hi. destruct i as [|i]; [exact Hf|].
          cbn [drop].
          pose proof (clear_for_spec _ _ _ i Hclear ltac:(lia)) as Hi'.
          rewrite find_token_app in Hi'.
          now destruct (find_token done (drop i s')).
        - rewrite Hq, length_app. lia. }
      rewrite <- Hr, Hd. rewrite str_replace_match by assumption.
      rewrite Hq. rewrite (resolve_match (done ++ [(x, v)]) x v q Hx).
      2:{ rewrite <- Hq. exact Hfull. }
      f_equal. apply IH.
      * assert (length (c :: s') = length x + length q) as Hl
          by (rewrite Hq; apply length_app).
        assert (length x <> 0) by (destruct x; [congruence|simpl; lia]).
        simpl in Hl, Hn. lia.
      * assert (separated (done ++ [(x, v)]) (c :: s') = true) as Hall.
        { cbn [separated]. rewrite Hfull, Hclear. exact Hsep. }
        rewrite Hq in Hall. now apply separated_drop in Hall.
    + rewrite (resolve_step _ c s' Hfull).
      cbn [separated] in Hsep. apply andb_true_iff in Hsep as [_ Hsep].
      change (c :: resolve done s') with ([c] ++ resolve done s').
      rewrite str_replace_copy; [|assumption|].
      2:{ intros i Hi. destruct i as [|i]; [|simpl in Hi; lia].
          rewrite drop_0.
          destruct (startswith x ([c] ++ resolve done s')) eqn:Hp; [|reflexivity].
          apply (resolve_prefix done x Hne Hin) in Hp.
          cbn [app] in Hp. congruence. }
      cbn [app]. f_equal. apply IH; [simpl in Hn; lia|exact Hsep].
Qed.

(** On a text whose tokens do not overlap, and with inert values, the
    calls one after the other do what the one pass does. *)
Lemma replace_all_resolve (tb : table) :
  tokens_nonempty tb ->
  all_inert tb ->
  forall s, separated tb s = true -> replace_all tb s = resolve tb s.
Proof.
  induction tb as [|[x v] done IH] using rev_ind; intros Hne Hin s Hsep.
  - now rewrite resolve_empty.
  - unfold replace_all. rewrite fold_left_app. cbn [fold_left fst snd].
    fold (replace_all done s).
    apply Forall_app in Hne as [Hne Hx].
    apply Forall_cons in Hx as [Hx _]. cbn [fst] in Hx.
    rewrite IH.
    + apply (replace_after_resolve done x v Hx Hne) with (n := length s);
        [|reflexivity|exact Hsep].
      apply Forall_forall. intros [y' v'] Hy'. cbn [snd].
      apply list_elem_of_In in Hy'.
      apply (Hin x v y' v'); apply in_or_app; [right; now left|now left].
    + exact Hne.
    + intros y w y' w' Hy Hy'.
      apply (Hin y w y' w'); apply in_or_app; now left.
    + now apply separated_prefix in Hsep.
Qed.

Lemma contains_start (t s : text) :
  startswith t s = true -> contains t s = true.
Proof. intros Hs. destruct s; cbn [contains]; now rewrite Hs. Qed.

Lemma contains_mid (t a b : text) : contains t (a ++ t ++ b) = true.
Proof. apply contains_app_r, contains_start, startswith_app. Qed.

Lemma app_eq_app_le (a b c d : text) :
  a ++ b = c ++ d -> length a <= length c ->
  exists e, c = a ++ e /\ b = e ++ d.
Proof.
  revert c. induction a as [|x a IH]; intros c Heq Hl.
  - exists c. auto.
  - destruct c as [|y c]; [simpl in Hl; lia|].
    injection Heq as -> Heq.
    destruct (IH c Heq ltac:(simpl in Hl; lia)) as (e & -> & ->).
    exists e. auto.
Qed.

(** What starts with a double underscore inside a value, or ends with one
    there, shows in the value. *)
Lemma double_underscore_at (w e : text) (q r : text) :
  w <> [] ->
  w ++ q = underscore :: underscore :: r ->
  startswith [underscore] (rev (e ++ w)) = true \/
  contains (T "__") (e ++ w) = true.
Proof.
  intros Hw Heq. destruct w as [|a w]; [congruence|].
  injection Heq as -> Heq. destruct w as [|b w].
  - left. rewrite rev_app_distr. reflexivity.
  - injection Heq as -> Heq. right.
    change (underscore :: underscore :: w) with (T "__" ++ w).
    apply contains_mid.
Qed.

(** A value that passes the test is inert for every token of the shape. *)
Lemma inert_value_inert (y v : text) :
  token_shaped y = true -> inert_value v = true -> inert y v.
Proof.
  unfold token_shaped, inert_value. rewrite !andb_true_iff, !negb_true_iff.
  intros [[Hpre Hsuf] Hchars] [[[Hc Hdd] Hs] He].
  apply startswith_spec in Hpre as [y' Hy'].
  apply startswith_spec in Hsuf as [ry Hry].
  change (T "__" ++ y') with (underscore :: underscore :: y') in Hy'.
  change (T "__" ++ ry) with (underscore :: underscore :: ry) in Hry.
  split.
  - intros p q Hst.
    destruct (Nat.le_gt_cases (length y) (length p)) as [Hle|Hgt]; [exact Hle|].
    exfalso. apply startswith_spec in Hst as [r Hr].
    destruct (app_eq_app_le p (v ++ q) y r Hr ltac:(lia)) as (y1 & Hy1 & Hvq).
    assert (y1 <> []) as Hy1ne.
    { intros ->. rewrite app_nil_r in Hy1. subst p. lia. }
    destruct (Nat.le_gt_cases (length v) (length y1)) as [Hvl|Hvl].
    + destruct (app_eq_app_le v q y1 r Hvq Hvl) as (e & -> & _).
      rewrite Hy1 in Hchars. rewrite !forallb_app in Hchars.
      apply andb_true_iff in Hchars as [_ Hchars].
      apply andb_true_iff in Hchars as [Hchars _]. congruence.
    + destruct (app_eq_app_le y1 r v q (eq_sym Hvq) ltac:(lia)) as (e & Hv & _).
      rewrite Hy1, rev_app_distr in Hry.
      assert (rev y1 <> []) as Hrne.
      { intros Hn. apply (f_equal (@rev ascii)) in Hn.
        rewrite rev_involutive in Hn. exact (Hy1ne Hn). }
      destruct (rev y1) as [|a w] eqn:Hrev; [congruence|].
      cbn [app] in Hry. injection Hry as -> Hry.
      apply (f_equal (@rev ascii)) in Hrev. rewrite rev_involutive in Hrev.
      cbn [rev] in Hrev. destruct w as [|b w].
      * cbn [rev app] in Hrev. subst y1 v. cbn in Hs. discriminate.
      * cbn [app] in Hry. injection Hry as -> Hry.
        cbn [rev] in Hrev. rewrite <- app_assoc in Hrev. cbn [app] in Hrev.
        subst y1 v. rewrite <- app_assoc in Hdd.
        change ([underscore; underscore] ++ e) with (T "__" ++ e) in Hdd.
        now rewrite contains_mid in Hdd.
  - intros i q Hi.
    destruct (startswith y (drop i v ++ q)) eqn:Hst; [exfalso|reflexivity].
    apply startswith_spec in Hst as [r Hr]. rewrite Hy' in Hr. cbn [app] in Hr.
    assert (drop i v <> []) as Hne.
    { intros Hn. apply (f_equal (@length ascii)) in Hn.
      rewrite length_drop in Hn. simpl in Hn. lia. }
    destruct (double_underscore_at (drop i v) (take i v) q (y' ++ r) Hne Hr)
      as [Hu|Hu]; rewrite take_drop in Hu; congruence.
Qed.

Lemma contains_spec (t s : text) :
  contains t s = true <-> exists a b, s = a ++ t ++ b.
Proof.
  split; [|intros (a & b & ->); apply contains_mid].
  induction s as [|c s IH].
  - cbn [contains]. rewrite orb_false_r. intros Hs.
    apply startswith_spec in Hs as [q Hq]. exists [], q. exact Hq.
  - cbn [contains]. intros Hc. apply orb_true_iff in Hc as [Hc|Hc].
    + apply startswith_spec in Hc as [q Hq]. exists [], q. exact Hq.
    + destruct (IH Hc) as (a & b & ->). exists (c :: a), b. reflexivity.
Qed.

Lemma contains_trans (t u s : text) :
  contains t u = true -> contains u s = true -> contains t s = true.
Proof.
  intros Ht Hu. apply contains_spec in Ht as (a1 & b1 & ->).
  apply contains_spec in Hu as (a2 & b2 & ->).
  apply contains_spec. exists (a2 ++ a1), (b1 ++ b2).
  now rewrite <- !app_assoc.
Qed.

Lemma venvr_tokens_shaped (tok : text) :
  In tok venvr_tokens ->
  token_shaped tok = true /\ tok <> [] /\ contains (T "__VENVR_") tok = true.
Proof.
  intros [<-|[<-|[<-|[<-|[]]]]]; (split; [reflexivity|split; [discriminate|reflexivity]]).
Qed.

Lemma venvr_table_tokens (incl h py lib : text) :
  map fst (venvr_table incl h py lib) = venvr_tokens.
Proof. reflexivity. Qed.

Lemma venvr_table_nonempty (incl h py lib : text) :
  tokens_nonempty (venvr_table incl h py lib).
Proof. repeat constructor; discriminate. Qed.

Lemma venvr_table_inert (flag : bool) (h py lib : text) :
  inert_value h = true -> inert_value py = true -> inert_value lib = true ->
  all_inert (venvr_table (incl_text flag) h py lib).
Proof.
  intros Hh Hpy Hlib y v y' v' Hy Hv'.
  apply inert_value_inert.
  - apply venvr_tokens_shaped.
    rewrite <- (venvr_table_tokens (incl_text flag) h py lib).
    change y with (fst (y, v)). now apply in_map.
  - destruct Hv' as [Hv'|[Hv'|[Hv'|[Hv'|[]]]]]; injection Hv' as <- <-;
      try assumption.
    destruct flag; reflexivity.
Qed.

Lemma replace_venvr_all (incl h py lib txt : text) :
  replace_venvr incl h py lib txt = replace_all (venvr_table incl h py lib) txt.
Proof. reflexivity. Qed.

(** C6 (as amended). With resolved values that are inert (each has a
    character that is neither an upper-case letter nor an underscore, has
    no double underscore and neither starts nor ends with an underscore),
    the text [replace_variables] returns holds none of the four tokens;
    where the occurrences of the tokens in the template do not overlap, it
    is the template with every occurrence of each of the four replaced by
    its value and all the rest, placeholders of other names included, as
    it was; and a template without any of the four comes back unchanged. *)
Theorem C6_placeholders_resolved (H : host) (b : builder) (c : context)
    (txt : text) (m : fs) (h l : text) :
  r_home c = Some h ->
  lib_name c = Some l ->
  inert_value h = true ->
  inert_value (python_exe c) = true ->
  inert_value l = true ->
  let tb := venvr_table (incl_text (r_system_site_packages b)) h (python_exe c) l in
  let tpl := host_replace_variables H b txt c in
  exists out,
    replace_variables H b txt c m = (Ok out, m) /\
    (forall tok, In tok venvr_tokens -> contains tok out = false) /\
    (separated tb tpl = true -> out = resolve tb tpl) /\
    ((forall tok, In tok venvr_tokens -> contains tok tpl = false) -> out = tpl).
Proof.
  intros Hh Hl Ih Ipy Il tb tpl.
  pose proof (venvr_table_nonempty (incl_text (r_system_site_packages b)) h
                (python_exe c) l) as Hne.
  pose proof (venvr_table_inert (r_system_site_packages b) h (python_exe c) l
                Ih Ipy Il) as Hin.
  fold tb in Hne, Hin.
  assert (replace_variables H b txt c m = (Ok (replace_all tb tpl), m)) as Hrun.
  { unfold replace_variables. fold tpl. rewrite Hh, Hl.
    destruct (contains (T "__VENVR_") tpl) eqn:Hmark; [reflexivity|].
    unfold ret. f_equal. f_equal. symmetry.
    apply replace_all_absent; [exact Hne|].
    intros tok Htok. destruct (contains tok tpl) eqn:Ht; [|reflexivity].
    destruct (venvr_tokens_shaped tok Htok) as (_ & _ & Hm).
    now rewrite (contains_trans _ _ _ Hm Ht) in Hmark. }
  exists (replace_all tb tpl). split; [exact Hrun|]. split; [|split].
  - intros tok Htok. destruct (venvr_tokens_shaped tok Htok) as (_ & Htne & _).
    apply replace_all_clean; [exact Htne|exact Hne| |now right].
    apply Forall_forall. intros [y' v'] Hy'. cbn [snd].
    apply list_elem_of_In in Hy'.
    destruct (in_map_iff fst tb tok) as [Hex _].
    destruct (Hex Htok) as ([y v] & Hy1 & Hy2). cbn [fst] in Hy1. subst y.
    exact (Hin tok v y' v' Hy2 Hy').
  - intros Hsep. now apply replace_all_resolve.
  - intros Habs. now apply replace_all_absent.
Qed.

End Resolver.

(** ** The runtime locator *)

Section Locator.

Variable sys : sysenv.

Lemma rstrip_nil_or_last (c : ascii) (s : text) :
  rstrip c s = [] \/ exists e, last (rstrip c s) = Some e /\ Ascii.eqb e c = false.
Proof.
  induction s as [|x s IH]; [now left|].
  cbn [rstrip]. destruct (rstrip c s) as [|y r] eqn:Hr.
  - destruct (Ascii.eqb x c) eqn:Hx; [now left|right].
    exists x. split; [reflexivity|exact Hx].
  - right. destruct IH as [IH|(e & He & Hc)]; [discriminate|].
    exists e. split; [|exact Hc]. now rewrite last_cons_cons.
Qed.

(** What [get_r_info] does, by the outcome of the two commands and of the
    two tests. *)
Lemma get_r_info_cases (m : fs) :
  match check_output sys [T "R"; T "RHOME"] with
  | Raise e => get_r_info sys m = (Raise e, m)
  | Ok out =>
      let bin := r_bin_path sys (rstrip newline out) in
      if exists_ m (Path.join bin [T "R"]) && exists_ m (Path.join bin [T "Rscript"])
      then
        match check_output sys [Path.join bin [T "Rscript"]; T "--vanilla"; T "-e"; cat_rv] with
        | Raise e => get_r_info sys m = (Raise e, m)
        | Ok rv =>
            if Re.match_version rv
            then get_r_info sys m = (Ok (r_info_of sys out rv), m)
            else get_r_info sys m = (Raise (ValueError "Invalid R version: '%s'" [rv]), m)
        end
      else get_r_info sys m =
             (Raise (ValueError "Could not find the R or Rscript executable." []), m)
  end.
Proof.
  unfold get_r_info, bind, lift, get_fs, raise, ret.
  destruct (check_output sys [T "R"; T "RHOME"]) as [out|e]; [|reflexivity].
  cbv zeta. fold (r_bin_path sys (rstrip newline out)).
  destruct (exists_ m _ && exists_ m _); cbn [negb]; [|reflexivity].
  destruct (check_output sys _) as [rv|e]; [|reflexivity].
  destruct (Re.match_version rv); reflexivity.
Qed.

Lemma get_r_info_ok_inv (m m' : fs) (info : r_info) :
  get_r_info sys m = (Ok info, m') ->
  exists out rv,
    check_output sys [T "R"; T "RHOME"] = Ok out /\
    exists_ m (Path.join (r_bin_path sys (rstrip newline out)) [T "R"]) = true /\
    exists_ m (Path.join (r_bin_path sys (rstrip newline out)) [T "Rscript"]) = true /\
    check_output sys
      [Path.join (r_bin_path sys (rstrip newline out)) [T "Rscript"];
       T "--vanilla"; T "-e"; cat_rv] = Ok rv /\
    Re.match_version rv = true /\
    info = r_info_of sys out rv /\
    m' = m.
Proof.
  pose proof (get_r_info_cases m) as Hc. intros Hrun.
  destruct (check_output sys [T "R"; T "RHOME"]) as [out|e]; [|congruence].
  cbv zeta in Hc.
  destruct (exists_ m (Path.join (r_bin_path sys (rstrip newline out)) [T "R"])) eqn:H1;
    [|cbn [andb] in Hc; congruence].
  destruct (exists_ m (Path.join (r_bin_path sys (rstrip newline out)) [T "Rscript"])) eqn:H2;
    [|cbn [andb] in Hc; congruence].
  cbn [andb] in Hc.
  destruct (check_output sys _) as [rv|e] eqn:Hrv; [|congruence].
  destruct (Re.match_version rv) eqn:Hm; [|congruence].
  rewrite Hc in Hrun. injection Hrun as <- <-.
  exists out, rv. repeat split; assumption.
Qed.

Lemma skip_digits_stop (a r : text) (d : ascii) :
  forallb is_digit a = true -> is_digit d = false ->
  Re.skip_digits (a ++ d :: r) = d :: r.
Proof.
  intros Ha Hd. induction a as [|c a IH].
  - cbn [app Re.skip_digits]. now rewrite Hd.
  - cbn [forallb] in Ha. apply andb_true_iff in Ha as [Hc Ha].
    cbn [app Re.skip_digits]. rewrite Hc. now apply IH.
Qed.

Lemma digits1_nonempty (s r : text) (d : ascii) :
  Re.digits1 s = Some (d :: r) -> is_digit d = false ->
  exists a, s = a ++ d :: r /\ a <> [] /\ forallb is_digit a = true.
Proof.
  intros Hs Hd. destruct (digits1_spec s (d :: r) Hs) as (a & Ha & Hda).
  exists a. split; [exact Ha|]. split; [|exact Hda].
  intros ->. cbn [app] in Ha. subst s. cbn [Re.digits1] in Hs.
  now rewrite Hd in Hs.
Qed.

Lemma digits1_run (a r : text) (d : ascii) :
  a <> [] -> forallb is_digit a = true -> is_digit d = false ->
  Re.digits1 (a ++ d :: r) = Some (d :: r).
Proof.
  intros Hne Ha Hd. destruct a as [|c a]; [congruence|].
  cbn [forallb] in Ha. apply andb_true_iff in Ha as [Hc Ha].
  cbn [app Re.digits1]. rewrite Hc. now rewrite skip_digits_stop.
Qed.

Lemma match_version_shape (rv : text) :
  Re.match_version rv = true ->
  exists a b c r,
    rv = a ++ dot :: b ++ dot :: c :: r /\
    a <> [] /\ forallb is_digit a = true /\
    b <> [] /\ forallb is_digit b = true /\
    c <> newline.
Proof.
  unfold Re.match_version.
  destruct (Re.digits1 rv) as [[|d1 r1]|] eqn:H1; try discriminate.
  intros Hm. apply andb_true_iff in Hm as [Hd1 Hm].
  apply Ascii.eqb_eq in Hd1. subst d1.
  destruct (Re.digits1 r1) as [[|d2 [|c r2]]|] eqn:H2; try discriminate.
  apply andb_true_iff in Hm as [Hd2 Hc].
  apply Ascii.eqb_eq in Hd2. subst d2.
  destruct (digits1_nonempty _ _ _ H1 eq_refl) as (a & -> & Hane & Ha).
  destruct (digits1_nonempty _ _ _ H2 eq_refl) as (b & -> & Hbne & Hb).
  exists a, b, c, r2. repeat split; try assumption.
  intros ->. now rewrite Ascii.eqb_refl in Hc.
Qed.

(** X1. The version test of [get_r_info] accepts exactly the texts that
    start with one or more digits, a dot, one or more digits, a dot and
    one more character that is no newline: the pattern
    [\d+\.\d+\..+] matched at the start. *)
Theorem X1_match_version_iff (rv : text) :
  Re.match_version rv = true <->
  exists a b c r,
    rv = a ++ dot :: b ++ dot :: c :: r /\
    a <> [] /\ forallb is_digit a = true /\
    b <> [] /\ forallb is_digit b = true /\
    c <> newline.
Proof.
  split; [apply match_version_shape|].
  intros (a & b & c & r & -> & Hane & Ha & Hbne & Hb & Hc).
  unfold Re.match_version.
  rewrite (digits1_run a _ dot Hane Ha eq_refl), Ascii.eqb_refl.
  rewrite (digits1_run b _ dot Hbne Hb eq_refl), Ascii.eqb_refl.
  cbn [andb]. apply negb_true_iff, Ascii.eqb_neq. exact Hc.
Qed.

(** X2. A descriptor [get_r_info] returns has a version of at least three
    components, the first two of them non-empty and all digits; the
    library directory [post_setup] derives from it is [R], the first, a
    dot and the second, without a slash; and the install root does not end
    with a newline. *)
Theorem X2_located_descriptor (m m' : fs) (info : r_info) :
  get_r_info sys m = (Ok info, m') ->
  (exists a b rest,
     version info = a :: b :: rest /\ rest <> [] /\
     a <> [] /\ forallb is_digit a = true /\
     b <> [] /\ forallb is_digit b = true /\
     r_libdir (version info) = T "R" ++ a ++ [dot] ++ b /\
     Path.has_slash (r_libdir (version info)) = false) /\
  (R_HOME info = [] \/
   exists e, last (R_HOME info) = Some e /\ e <> newline).
Proof.
  intros Hrun. apply get_r_info_ok_inv in Hrun
    as (out & rv & _ & _ & _ & _ & Hm & -> & _).
  split.
  - apply match_version_shape in Hm
      as (a & b & c & r & -> & Hane & Ha & Hbne & Hb & Hc).
    cbn [version r_info_of]. rewrite !split_on_digits by assumption.
    destruct (split_on_cons dot (c :: r)) as (w & ws & Hw).
    exists a, b, (split_on dot (c :: r)).
    split; [reflexivity|]. split; [rewrite Hw; discriminate|].
    repeat (split; [assumption|]).
    assert (r_libdir (a :: b :: split_on dot (c :: r)) = T "R" ++ a ++ [dot] ++ b)
      as Heq by reflexivity.
    split; [exact Heq|].
    change (Path.has_slash (T "R" ++ a ++ [dot] ++ b) = false).
    unfold Path.has_slash. rewrite !existsb_app.
    fold (Path.has_slash a). fold (Path.has_slash b).
    now rewrite (has_slash_digits a Ha), (has_slash_digits b Hb).
  - cbn [R_HOME r_info_of].
    destruct (rstrip_nil_or_last newline out) as [Hn|(e & He & Hc)]; [now left|].
    right. exists e. split; [exact He|].
    intros ->. now rewrite Ascii.eqb_refl in Hc.
Qed.

End Locator.

(** ** The configuration file of a conversion *)

Section Conversion.

Variable sys : sysenv.
Variable H : host.

Lemma get_r_info_fs (m : fs) : snd (get_r_info sys m) = m.
Proof.
  pose proof (get_r_info_cases sys m) as Hc.
  destruct (check_output sys [T "R"; T "RHOME"]) as [out|e];
    [|now rewrite Hc].
  cbv zeta in Hc. destruct (_ && _); [|now rewrite Hc].
  destruct (check_output sys _) as [rv|e]; [|now rewrite Hc].
  destruct (Re.match_version rv); now rewrite Hc.
Qed.

(** Converting, [create_configuration] locates R unless the context has
    it, and appends. *)
Lemma create_configuration_convert (sys' : sysenv) (H' : host) (b : builder)
    (c : context) (m : fs) :
  create_configuration sys' H' b c true m =
  match r_home c with
  | Some _ => (append_configuration b c ;;; ret c) m
  | None =>
      (info <- get_r_info sys' ;;
       append_configuration b (set_r_info c info) ;;; ret (set_r_info c info)) m
  end.
Proof.
  unfold create_configuration, bind, ret. cbn [negb].
  destruct (r_home c); [reflexivity|].
  destruct (get_r_info sys' m) as [[info|e] m1]; reflexivity.
Qed.


Lemma create_configuration_located (b : builder) (c : context)
    (m m' : fs) (info : r_info) (p q old : text) :
  r_home c = None ->
  cfg_path c = Some p ->
  follow max_links m p = Some q ->
  appends_to m q old ->
  get_r_info sys m = (Ok info, m') ->
  create_configuration sys H b c true m =
    (Ok (set_r_info c info),
     <[q := File (old ++ appended (R_HOME info) (r_system_site_packages b)
                           (version info))]> m).
Proof.
  intros Hh Hp Hq Hold Hrun. pose proof (get_r_info_fs m) as Hfs.
  rewrite Hrun in Hfs. cbn [snd] in Hfs. subst m'.
  rewrite create_configuration_convert, Hh. unfold bind at 1.
  rewrite Hrun. unfold bind.
  now rewrite (append_configuration_ok b (set_r_info c info) m p q old
                 (R_HOME info) (version info)).
Qed.


End Conversion.

(** ** The steps of a build together *)

Section Build.

Variable sys : sysenv.
Variable H : host.

(** X4. Nothing is rolled back: converting an environment in which a
    regular file or a link that leads somewhere stands in the place of the
    R library, [create] raises the [ValueError] of [post_setup] after the
    configuration file has got its three lines, and the lines stay. *)
Theorem X4_convert_keeps_configuration_on_conflict (b : builder) (d : text)
    (m m0 m0' : fs) (c0 : context) (info : r_info) (q old : text) :
  convert_to_venvr b = true ->
  exists_ m (Path.join (abspath sys d) [T "pyvenv.cfg"]) = true ->
  host_ensure_directories H b (abspath sys d) m = (Ok c0, m0) ->
  r_home c0 = None ->
  get_r_info sys m0 = (Ok info, m0') ->
  follow max_links m0 (Path.join (abspath sys d) [T "pyvenv.cfg"]) = Some q ->
  m0 !! q = Some (File old) ->
  exists_
    (<[q := File (old ++ appended (R_HOME info) (r_system_site_packages b)
                           (version info))]> m0)
    (libpath sys (env_dir c0) (version info)) = true ->
  islink
    (<[q := File (old ++ appended (R_HOME info) (r_system_site_packages b)
                           (version info))]> m0)
    (libpath sys (env_dir c0) (version info)) ||
  isfile
    (<[q := File (old ++ appended (R_HOME info) (r_system_site_packages b)
                           (version info))]> m0)
    (libpath sys (env_dir c0) (version info)) = true ->
  create sys H b d m =
    (Raise (unable_to_create (libpath sys (env_dir c0) (version info))),
     <[q := File (old ++ appended (R_HOME info) (r_system_site_packages b)
                           (version info))]> m0).
Proof.
  intros Hconv Hcfg Hens Hh Hrun Hq Hold Hex Hconf.
  unfold create. rewrite Hconv. unfold bind at 1. unfold get_fs at 1.
  rewrite Hcfg. cbn [negb]. unfold bind at 1. rewrite Hens.
  unfold bind at 1.
  rewrite (create_configuration_located sys H b
             (set_cfg_path c0 (Path.join (abspath sys d) [T "pyvenv.cfg"]))
             m0 m0' info _ q old Hh eq_refl Hq (or_introl Hold) Hrun).
  unfold bind at 1. unfold post_setup. unfold bind at 1.
  now rewrite (provision_conflict sys b
                 (set_r_info (set_cfg_path c0 _) info) (version info) _
                 eq_refl Hex Hconf).
Qed.






End Build.

(** ** The demonstration system *)

(** C1 (as stated) fails: the configuration file of [/b] has two lines
    before the writer runs and six, not five, after it. *)
Lemma C1_counterexample :
  exists m',
    append_configuration Demo.convert_builder Demo.ctx Demo.disk = (Ok tt, m') /\
    length (lines (content Demo.disk (T "/b/pyvenv.cfg"))) = 2 /\
    length (lines (content m' (T "/b/pyvenv.cfg"))) = 6 /\
    length (lines (content m' (T "/b/pyvenv.cfg"))) <>
      length (lines (content Demo.disk (T "/b/pyvenv.cfg"))) + 3.
Proof.
  exists (<[T "/b/pyvenv.cfg" :=
             File (Demo.pyvenv_cfg ++
                   appended (T "/usr/lib/R") false [T "4"; T "3"; T "1"])]>
            Demo.disk).
  split.
  { apply (append_configuration_ok Demo.convert_builder Demo.ctx Demo.disk
             (T "/b/pyvenv.cfg") (T "/b/pyvenv.cfg") Demo.pyvenv_cfg
             (T "/usr/lib/R") [T "4"; T "3"; T "1"]);
      [reflexivity | vm_compute; reflexivity | left; vm_compute; reflexivity
      | reflexivity | reflexivity]. }
  rewrite content_insert.
  rewrite (content_lookup Demo.disk _ Demo.pyvenv_cfg)
    by (vm_compute; reflexivity).
  repeat split; try (vm_compute; reflexivity).
  vm_compute. discriminate.
Qed.

(** The hypotheses of C1 hold for the configuration file of [/b]. *)
Lemma C1_configuration_lines_witness :
  exists m',
    append_configuration Demo.convert_builder Demo.ctx Demo.disk = (Ok tt, m') /\
    (forall q', q' <> T "/b/pyvenv.cfg" -> m' !! q' = Demo.disk !! q') /\
    lines (content m' (T "/b/pyvenv.cfg")) =
      (if terminated Demo.pyvenv_cfg
       then lines Demo.pyvenv_cfg ++ [[]] else lines Demo.pyvenv_cfg) ++
      [ T "R-home = " ++ T "/usr/lib/R";
        T "R-include-system-packages = " ++
          incl_text (r_system_site_packages Demo.convert_builder);
        T "R-version = " ++ Text.join [dot] [T "4"; T "3"; T "1"] ] /\
    length (lines (content m' (T "/b/pyvenv.cfg"))) =
      length (lines Demo.pyvenv_cfg) +
      (if terminated Demo.pyvenv_cfg then 4 else 3).
Proof.
  apply (C1_configuration_lines Demo.convert_builder Demo.ctx Demo.disk
           (T "/b/pyvenv.cfg") (T "/b/pyvenv.cfg") Demo.pyvenv_cfg
           (T "/usr/lib/R") [T "4"; T "3"; T "1"]).
  - reflexivity.
  - vm_compute. reflexivity.
  - vm_compute. reflexivity.
  - reflexivity.
  - reflexivity.
  - reflexivity.
  - repeat constructor.
Defined.

(** C2 (as stated) fails: with [/a] (no environment) in front of [/b] (an
    environment that builds), the run ends with status 1 and the file
    system it started from, so [/b] was never attempted, although building
    [/b] in that very state succeeds and puts R into its [bin]. *)
Lemma C2_counterexample :
  run Demo.sys Demo.host_ (Demo.opts [T "/a"; T "/b"] true false) Demo.disk =
    (1, Some (not_an_environment (T "/a")), Demo.disk) /\
  fst (create Demo.sys Demo.host_ Demo.convert_builder (T "/b") Demo.disk) = Ok tt /\
  islink (snd (create Demo.sys Demo.host_ Demo.convert_builder (T "/b") Demo.disk))
         (T "/b/bin/R") = true /\
  islink Demo.disk (T "/b/bin/R") = false.
Proof.
  split; [|repeat split; vm_compute; reflexivity].
  vm_cast_no_check (eq_refl (1, Some (not_an_environment (T "/a")), Demo.disk)).
Qed.

(** The hypotheses of C2 hold for a run over [/a] and [/b]. *)
Lemma C2_sequential_fail_fast_witness :
  (forall m',
     builds Demo.sys Demo.host_ (make_builder (Demo.opts [T "/a"; T "/b"] true false))
       (dirs (Demo.opts [T "/a"; T "/b"] true false)) Demo.disk m' ->
     run Demo.sys Demo.host_ (Demo.opts [T "/a"; T "/b"] true false) Demo.disk =
       (0, None, m')) /\
  (forall ds1 d ds2 m1 m2 e,
     dirs (Demo.opts [T "/a"; T "/b"] true false) = ds1 ++ d :: ds2 ->
     builds Demo.sys Demo.host_ (make_builder (Demo.opts [T "/a"; T "/b"] true false))
       ds1 Demo.disk m1 ->
     create Demo.sys Demo.host_ (make_builder (Demo.opts [T "/a"; T "/b"] true false))
       d m1 = (Raise e, m2) ->
     run Demo.sys Demo.host_ (Demo.opts [T "/a"; T "/b"] true false) Demo.disk =
       (1, Some e, m2)) /\
  (exit_status Demo.sys Demo.host_ (Demo.opts [T "/a"; T "/b"] true false) Demo.disk = 0 <->
     exists m',
       builds Demo.sys Demo.host_ (make_builder (Demo.opts [T "/a"; T "/b"] true false))
         (dirs (Demo.opts [T "/a"; T "/b"] true false)) Demo.disk m') /\
  (exit_status Demo.sys Demo.host_ (Demo.opts [T "/a"; T "/b"] true false) Demo.disk = 1 <->
     exists ds1 d ds2 m1 m2 e,
       dirs (Demo.opts [T "/a"; T "/b"] true false) = ds1 ++ d :: ds2 /\
       builds Demo.sys Demo.host_ (make_builder (Demo.opts [T "/a"; T "/b"] true false))
         ds1 Demo.disk m1 /\
       create Demo.sys Demo.host_ (make_builder (Demo.opts [T "/a"; T "/b"] true false))
         d m1 = (Raise e, m2)).
Proof.
  apply (C2_sequential_fail_fast Demo.sys Demo.host_
           (Demo.opts [T "/a"; T "/b"] true false) Demo.disk);
    reflexivity.
Defined.

(** The hypotheses of C3 hold for [/a], which has no [pyvenv.cfg]. *)
Lemma C3_convert_requires_environment_witness :
  create Demo.sys Demo.host_ Demo.convert_builder (T "/a") Demo.disk =
    (Raise (not_an_environment (abspath Demo.sys (T "/a"))), Demo.disk) /\
  forall (o : options) (ds : list text),
    compatible Demo.sys = true ->
    opt_convert o = true -> opt_clear o = false -> dirs o = T "/a" :: ds ->
    run Demo.sys Demo.host_ o Demo.disk =
      (1, Some (not_an_environment (abspath Demo.sys (T "/a"))), Demo.disk).
Proof.
  apply (C3_convert_requires_environment Demo.sys Demo.host_
           Demo.convert_builder (T "/a") Demo.disk).
  - reflexivity.
  - vm_compute. reflexivity.
Defined.

(** The hypotheses of C7 hold for [--convert-to-venvr --clear /b]. *)
Lemma C7_argument_conflict_witness :
  main Demo.sys Demo.host_ (Demo.opts [T "/b"] true true) Demo.disk =
    (Raise (ValueError err_msg [T "convert-to-venvr"]), Demo.disk) /\
  run Demo.sys Demo.host_ (Demo.opts [T "/b"] true true) Demo.disk =
    (1, Some (ValueError err_msg [T "convert-to-venvr"]), Demo.disk).
Proof.
  apply (C7_argument_conflict Demo.sys Demo.host_
           (Demo.opts [T "/b"] true true) Demo.disk).
  - reflexivity.
  - reflexivity.
  - left. reflexivity.
Defined.

(** The hypotheses of C8 hold for two builds on two disks. *)
Lemma C8_configuration_deterministic_witness :
  exists m1' m2',
    append_configuration Demo.convert_builder Demo.ctx Demo.disk = (Ok tt, m1') /\
    append_configuration Demo.copy_builder Demo.ctx_c Demo.disk_c = (Ok tt, m2') /\
    content m1' (T "/b/pyvenv.cfg") = content m2' (T "/c/pyvenv.cfg") /\
    content m1' (T "/b/pyvenv.cfg") =
      Demo.pyvenv_cfg ++
      appended (T "/usr/lib/R") (r_system_site_packages Demo.convert_builder)
        [T "4"; T "3"; T "1"].
Proof.
  apply (C8_configuration_deterministic Demo.convert_builder Demo.copy_builder
           Demo.ctx Demo.ctx_c Demo.disk Demo.disk_c
           (T "/b/pyvenv.cfg") (T "/b/pyvenv.cfg")
           (T "/c/pyvenv.cfg") (T "/c/pyvenv.cfg")
           Demo.pyvenv_cfg (T "/usr/lib/R") [T "4"; T "3"; T "1"]).
  - reflexivity.
  - vm_compute. reflexivity.
  - left. vm_compute. reflexivity.
  - reflexivity.
  - vm_compute. reflexivity.
  - left. vm_compute. reflexivity.
  - reflexivity.
  - reflexivity.
  - reflexivity.
  - reflexivity.
  - reflexivity.
Defined.



(** C4 (the code departs from it). A symbolic link whose target is gone
    stands in the place of the R library: [os.path.exists] says nothing is
    there, so the test for a link is never reached, [os.makedirs] is
    called and raises [FileExistsError]; the error [post_setup] has for a
    link in that place is not raised. *)
Theorem C4_dangling_link_not_reported :
  libpath Demo.sys (env_dir Demo.ctx) [T "4"; T "3"; T "1"] = T "/b/lib/R4.3" /\
  islink Demo.disk_dangling (T "/b/lib/R4.3") = true /\
  exists_ Demo.disk_dangling (T "/b/lib/R4.3") = false /\
  post_setup_directories Demo.sys Demo.convert_builder Demo.ctx Demo.disk_dangling =
    (Raise (OSError FileExistsError (T "/b/lib/R4.3")), Demo.disk_dangling).
Proof.
  split; [reflexivity|].
  split; [vm_compute; reflexivity|].
  split; [vm_compute; reflexivity|].
  vm_cast_no_check
    (eq_refl (@Raise context (OSError FileExistsError (T "/b/lib/R4.3")),
              Demo.disk_dangling)).
Qed.

(** With neither the library directory nor the R library in [/b], both
    are made. *)
Example provision_missing_parents :
  post_setup_directories Demo.sys Demo.convert_builder Demo.ctx Demo.disk =
    (Ok Demo.ctx_lib,
     <[T "/b/lib/R4.3" := Dir]> (<[T "/b/lib" := Dir]> Demo.disk)).
Proof.
  vm_cast_no_check
    (eq_refl (Ok Demo.ctx_lib,
              <[T "/b/lib/R4.3" := Dir]> (<[T "/b/lib" := Dir]> Demo.disk))).
Qed.

(** C6 (as stated) fails. With R in a directory named like a token, the
    token is in the output; and where two tokens share their underscores,
    the second call takes the shared ones and the first token is left
    behind, cut short. *)
Lemma C6_counterexample :
  fst (replace_variables Demo.host_ Demo.convert_builder
         (T "R_HOME=__VENVR_R_HOME__") Demo.ctx_nested Demo.disk) =
    Ok (T "R_HOME=/opt/__VENVR_R_HOME__/R") /\
  contains VENVR_R_HOME (T "R_HOME=/opt/__VENVR_R_HOME__/R") = true /\
  fst (replace_variables Demo.host_ Demo.convert_builder
         (T "__VENVR_PY_EXEC__VENVR_R_HOME__") Demo.ctx_lib Demo.disk) =
    Ok (T "__VENVR_PY_EXEC/usr/lib/R").
Proof. repeat split; vm_compute; reflexivity. Qed.

(** The hypotheses of C6 hold for the template and the values of [/b]. *)
Lemma C6_placeholders_resolved_witness :
  exists out,
    replace_variables Demo.host_ Demo.convert_builder Demo.template Demo.ctx_lib
      Demo.disk = (Ok out, Demo.disk) /\
    (forall tok, In tok venvr_tokens -> contains tok out = false) /\
    (Subst.separated
       (venvr_table (incl_text (r_system_site_packages Demo.convert_builder))
          (T "/usr/lib/R") (python_exe Demo.ctx_lib) (T "lib"))
       (host_replace_variables Demo.host_ Demo.convert_builder Demo.template
          Demo.ctx_lib) = true ->
     out =
       Subst.resolve
         (venvr_table (incl_text (r_system_site_packages Demo.convert_builder))
            (T "/usr/lib/R") (python_exe Demo.ctx_lib) (T "lib"))
         (host_replace_variables Demo.host_ Demo.convert_builder Demo.template
            Demo.ctx_lib)) /\
    ((forall tok, In tok venvr_tokens ->
        contains tok
          (host_replace_variables Demo.host_ Demo.convert_builder Demo.template
             Demo.ctx_lib) = false) ->
     out =
       host_replace_variables Demo.host_ Demo.convert_builder Demo.template
         Demo.ctx_lib).
Proof.
  apply (C6_placeholders_resolved Demo.host_ Demo.convert_builder Demo.ctx_lib
           Demo.template Demo.disk (T "/usr/lib/R") (T "lib"));
    reflexivity.
Defined.

Example template_separated :
  Subst.separated
    (venvr_table (T "false") (T "/usr/lib/R") (T "python3") (T "lib"))
    (host_replace_variables Demo.host_ Demo.convert_builder Demo.template
       Demo.ctx_lib) = true.
Proof. vm_compute. reflexivity. Qed.

Example split_version : split_on dot (T "4.3.1") = [T "4"; T "3"; T "1"].
Proof. reflexivity. Qed.

Example replace_leftmost :
  str_replace (T "ab") (T "X") (T "cababab_ab") = T "cXXX_X".
Proof. reflexivity. Qed.

Example match_version_samples :
  map Re.match_version
    [T "4.3.1"; T "4.3"; T "4.3."; T "a.3.1"; T "10.22.x y"; T "4..1"] =
  [true; false; false; false; true; false].
Proof. reflexivity. Qed.

(** The hypothesis of X2 holds for the R of the demonstration system. *)
Lemma X2_located_descriptor_witness :
  (exists a b rest,
     version Demo.info = a :: b :: rest /\ rest <> [] /\
     a <> [] /\ forallb is_digit a = true /\
     b <> [] /\ forallb is_digit b = true /\
     r_libdir (version Demo.info) = T "R" ++ a ++ [dot] ++ b /\
     Path.has_slash (r_libdir (version Demo.info)) = false) /\
  (R_HOME Demo.info = [] \/
   exists e, last (R_HOME Demo.info) = Some e /\ e <> newline).
Proof.
  apply (X2_located_descriptor Demo.sys Demo.disk Demo.disk Demo.info).
  vm_cast_no_check (eq_refl (Ok Demo.info, Demo.disk)).
Defined.


(** The hypotheses of X4 hold for [/b] with a file in the place of the R
    library. *)
Lemma X4_convert_keeps_configuration_on_conflict_witness :
  create Demo.sys Demo.host_ Demo.convert_builder (T "/b") Demo.disk_conflict =
    (Raise (unable_to_create
              (libpath Demo.sys (env_dir Demo.ctx0) (version Demo.info))),
     <[T "/b/pyvenv.cfg" :=
         File (Demo.pyvenv_cfg ++
               appended (R_HOME Demo.info)
                 (r_system_site_packages Demo.convert_builder)
                 (version Demo.info))]> Demo.disk_conflict).
Proof.
  apply (X4_convert_keeps_configuration_on_conflict Demo.sys Demo.host_
           Demo.convert_builder (T "/b") Demo.disk_conflict Demo.disk_conflict
           Demo.disk_conflict Demo.ctx0 Demo.info (T "/b/pyvenv.cfg")
           Demo.pyvenv_cfg).
  - reflexivity.
  - vm_compute. reflexivity.
  - vm_cast_no_check (eq_refl (Ok Demo.ctx0, Demo.disk_conflict)).
  - reflexivity.
  - vm_cast_no_check (eq_refl (Ok Demo.info, Demo.disk_conflict)).
  - vm_compute. reflexivity.
  - vm_compute. reflexivity.
  - vm_compute. reflexivity.
  - vm_compute. reflexivity.
Defined.



